(** * SQLite Logger: a shallow embedding of [sqlite_logger.c]

    The development follows the source file function by function:
    C strings and [strncpy], the log entry record, the SQLite collaborator
    (as a small fault-injecting state machine), the private helpers
    [SL_AddLogEntry] and [SL_ProcessTransaction], and the public entry
    points [SL_Initialize], [SL_Terminate], [SL_SetLogLevel],
    [SL_GetLogLevel], [SL_Log] and [SL_Result_String].

    Integers of the program ([int32_t], [uint32_t], the [tSL_LogLevel]
    enumeration) are [Z]; character arrays are [list ascii] of the array's
    length; a [const char*] argument is an [option (list ascii)], [None]
    being the NULL pointer. *)

From Stdlib Require Import ZArith Lia Ascii String.
From stdpp Require Import list.

Local Open Scope Z_scope.

(** ** C strings *)

Module CString.

Definition is_nul (c : ascii) : bool := Ascii.eqb c zero.

(** [strlen]: the number of characters before the first NUL.  For an
    argument string the end of the list stands for its terminator. *)
Fixpoint strlen (s : list ascii) : nat :=
  match s with
  | [] => 0%nat
  | c :: r => if is_nul c then 0%nat else S (strlen r)
  end.

(** [strncpy dst src n] writes exactly [n] characters at the start of
    [dst]: the characters of [src] up to its terminator and, when [src]
    is shorter than [n], NULs up to [n].  No terminator is written when
    [src] has [n] characters or more.  A result longer than [dst] is a
    write past the end of the array. *)
Definition strncpy (dst src : list ascii) (n : nat) : list ascii :=
  take n (take (strlen src) src ++ replicate n zero) ++ drop n dst.

(** The array holds a terminator. *)
Definition terminated (a : list ascii) : bool := (strlen a <? length a)%nat.

(** The C string that starts at the beginning of the array. *)
Definition contents (a : list ascii) : list ascii := take (strlen a) a.

Definition of_string (s : string) : list ascii := list_ascii_of_string s.

End CString.

Import CString.

(** ** Constants of the header and of the source file *)

Definition SL_RESULT_SUCCESS : Z := 0.
Definition SL_RESULT_RESERVED_START : Z := -1.
Definition SL_RESULT_FAILURE : Z := SL_RESULT_RESERVED_START.
Definition SL_RESULT_NOT_INITIALIZED : Z := SL_RESULT_RESERVED_START - 1.
Definition SL_RESULT_ALREADY_INITIALIZED : Z := SL_RESULT_RESERVED_START - 2.
Definition SL_RESULT_RESERVED_END : Z := -31.

(** [errno.h] *)
Definition EFAULT : Z := 14.
Definition EINVAL : Z := 22.

(** [tSL_LogLevel] *)
Definition eSL_LogLevel_Diagnostic : Z := 0.
Definition eSL_LogLevel_Detail : Z := 1.
Definition eSL_LogLevel_Info : Z := 2.
Definition eSL_LogLevel_Warning : Z := 3.
Definition eSL_LogLevel_Error : Z := 4.
Definition eSL_LogLevel_None : Z := 5.

(** Fixed string lengths *)
Definition SL_TIMESTAMP_STRING_LENGTH : nat := 32.
Definition SL_MESSAGE_STRING_LENGTH : nat := 1024.
Definition SL_LEVEL_STRING_LENGTH : nat := 16.
Definition SL_FILE_NAME_STRING_LENGTH : nat := 256.
Definition SL_FUNCTION_NAME_STRING_LENGTH : nat := 256.
Definition SL_TAG_STRING_LENGTH : nat := 128.
Definition SL_SUPPLEMENTAL_DATA_STRING_LENGTH : nat := 1024.

(** Log level strings *)
Definition kSL_DiagnosticLevelString : list ascii := of_string "Diagnostic".
Definition kSL_DetailLevelString : list ascii := of_string "Detail".
Definition kSL_InfoLevelString : list ascii := of_string "Info".
Definition kSL_WarningLevelString : list ascii := of_string "Warning".
Definition kSL_ErrorLevelString : list ascii := of_string "Error".
Definition kSL_NoneLevelString : list ascii := of_string "None".

(** Result strings *)
Definition kSL_ResultStrings : list string :=
  [ ""%string;
    "Unknown error code"%string;
    "Not initialized"%string;
    "Already initialized"%string ].

(** ** Log entries *)

Record tSL_LogEntry := {
  timestamp : list ascii;
  message : list ascii;
  level : list ascii;
  fileName : list ascii;
  functionName : list ascii;
  lineNumber : Z;
  tag : list ascii;
  supplementalData : list ascii
}.

(** One slot after [memset (.., 0, ..)]. *)
Definition zero_entry : tSL_LogEntry := {|
  timestamp := replicate SL_TIMESTAMP_STRING_LENGTH zero;
  message := replicate SL_MESSAGE_STRING_LENGTH zero;
  level := replicate SL_LEVEL_STRING_LENGTH zero;
  fileName := replicate SL_FILE_NAME_STRING_LENGTH zero;
  functionName := replicate SL_FUNCTION_NAME_STRING_LENGTH zero;
  lineNumber := 0;
  tag := replicate SL_TAG_STRING_LENGTH zero;
  supplementalData := replicate SL_SUPPLEMENTAL_DATA_STRING_LENGTH zero
|}.

(** The copy that [SL_AddLogEntry] repeats for every string field:
    [strncpy (field, s, (strlen (s) < (BOUND - 1)) ? strlen (s) : BOUND)]. *)
Definition SL_CopyCount (s : list ascii) (bound : nat) : nat :=
  if (strlen s <? bound - 1)%nat then strlen s else bound.

Definition SL_CopyField (field s : list ascii) (bound : nat) : list ascii :=
  strncpy field s (SL_CopyCount s bound).

(** The optional fields are copied only when the pointer is not NULL. *)
Definition SL_CopyOptional (field : list ascii) (s : option (list ascii))
    (bound : nat) : list ascii :=
  match s with
  | Some s => SL_CopyField field s bound
  | None => field
  end.

(** The label chosen by the [if]/[else if] chain on [level]. *)
Definition SL_LevelString (lvl : Z) : list ascii :=
  if lvl =? eSL_LogLevel_Diagnostic then kSL_DiagnosticLevelString
  else if lvl =? eSL_LogLevel_Detail then kSL_DetailLevelString
  else if lvl =? eSL_LogLevel_Info then kSL_InfoLevelString
  else if lvl =? eSL_LogLevel_Warning then kSL_WarningLevelString
  else if lvl =? eSL_LogLevel_Error then kSL_ErrorLevelString
  else kSL_NoneLevelString.

(** ** The SQLite collaborator

    SQLite is outside the repository; the logger uses it through a dozen
    calls.  The model keeps what those calls can observe: the committed
    rows (in rowid order), the rows of the open transaction, the values
    bound to the parameters of the insert statement, a plan of the
    failures still to come, and the journal of the calls made so far.

    Every call whose result the source examines first consults the plan:
    an error code at its head makes the call fail with that code and
    without effect.  [SQLITE_OK], [SQLITE_ROW] and [SQLITE_DONE] are not
    errors and plan no failure.  [ROLLBACK], [sqlite3_finalize] and
    [sqlite3_close_v2], whose results the source throws away, always take
    effect. *)

Module SQLite.

Definition SQLITE_OK : Z := 0.
Definition SQLITE_ERROR : Z := 1.
Definition SQLITE_MISUSE : Z := 21.
Definition SQLITE_ROW : Z := 100.
Definition SQLITE_DONE : Z := 101.

(** [sqlite3*] *)
Inductive sqlite3 := db_null | db_handle.

(** [sqlite3_stmt*]: NULL, a schema statement ([CREATE TABLE],
    [CREATE VIEW]) or the parameterized [INSERT]. *)
Inductive sqlite3_stmt := stmt_null | stmt_schema | stmt_insert.

(** A bound parameter.  [TextOverrun a] is a text read from an array
    [a] that holds no terminator: the text starts with the characters
    of [a] and runs on into whatever storage follows, which the model
    does not track. *)
Inductive value :=
| Null
| Integer (z : Z)
| Text (s : list ascii)
| TextOverrun (a : list ascii).

Definition row := list value.

Inductive command := BEGIN_TRANSACTION | END_TRANSACTION | ROLLBACK.

Inductive call :=
| c_open
| c_prepare (what : sqlite3_stmt)
| c_bind (index : nat)
| c_step (what : sqlite3_stmt)
| c_reset
| c_finalize (what : sqlite3_stmt)
| c_exec (cmd : command)
| c_close.

Record db := {
  rows : list row;
  txn : option (list row);
  params : nat -> value;
  faults : list Z;
  journal : list call
}.

Definition is_error (c : Z) : bool :=
  negb ((c =? SQLITE_OK) || (c =? SQLITE_ROW) || (c =? SQLITE_DONE)).

Definition record (c : call) (d : db) : db :=
  {| rows := rows d; txn := txn d; params := params d;
     faults := faults d; journal := journal d ++ [c] |}.

(** Enter a fallible call: journal it and take the head of the plan. *)
Definition enter (c : call) (d : db) : option Z * db :=
  let d' := {| rows := rows d; txn := txn d; params := params d;
               faults := tail (faults d); journal := journal d ++ [c] |} in
  match faults d with
  | f :: _ => (if is_error f then Some f else None, d')
  | [] => (None, d')
  end.

Definition set_rows (r : list row) (t : option (list row)) (d : db) : db :=
  {| rows := r; txn := t; params := params d;
     faults := faults d; journal := journal d |}.

Definition set_params (p : nat -> value) (d : db) : db :=
  {| rows := rows d; txn := txn d; params := p;
     faults := faults d; journal := journal d |}.

(** A handle is returned even when the open fails. *)
Definition sqlite3_open_v2 (d : db) : Z * sqlite3 * db :=
  match enter c_open d with
  | (Some f, d') => (f, db_handle, d')
  | (None, d') => (SQLITE_OK, db_handle, d')
  end.

(** On failure the statement pointer is set to NULL. *)
Definition sqlite3_prepare_v2 (what : sqlite3_stmt) (d : db)
    : Z * sqlite3_stmt * db :=
  match enter (c_prepare what) d with
  | (Some f, d') => (f, stmt_null, d')
  | (None, d') =>
      (SQLITE_OK, what,
       match what with
       | stmt_insert => set_params (fun _ => Null) d'
       | _ => d'
       end)
  end.

(** [sqlite3_bind_text], [sqlite3_bind_int], [sqlite3_bind_null]:
    parameter indices start at 1.  A NULL statement is a misuse. *)
Definition sqlite3_bind (stmt : sqlite3_stmt) (index : nat) (v : value)
    (d : db) : Z * db :=
  match stmt with
  | stmt_null => (SQLITE_MISUSE, record (c_bind index) d)
  | _ =>
      match enter (c_bind index) d with
      | (Some f, d') => (f, d')
      | (None, d') =>
          (SQLITE_OK,
         set_params (fun i => if (i =? index)%nat then v else params d' i) d')
      end
  end.

(** The row that a step of the insert statement adds: the values of its
    eight parameters. *)
Definition bound_row (d : db) : row := map (params d) (seq 1 8).

(** A step of the insert statement adds the bound row: to the open
    transaction when there is one, otherwise to the table at once. *)
Definition sqlite3_step (stmt : sqlite3_stmt) (d : db) : Z * db :=
  match stmt with
  | stmt_null => (SQLITE_MISUSE, record (c_step stmt) d)
  | stmt_schema =>
      match enter (c_step stmt) d with
      | (Some f, d') => (f, d')
      | (None, d') => (SQLITE_DONE, d')
      end
  | stmt_insert =>
      match enter (c_step stmt) d with
      | (Some f, d') => (f, d')
      | (None, d') =>
          (SQLITE_DONE,
           match txn d' with
           | Some pending => set_rows (rows d') (Some (pending ++ [bound_row d'])) d'
           | None => set_rows (rows d' ++ [bound_row d']) None d'
           end)
      end
  end.

Definition sqlite3_reset (stmt : sqlite3_stmt) (d : db) : Z * db :=
  match enter c_reset d with
  | (Some f, d') => (f, d')
  | (None, d') => (SQLITE_OK, d')
  end.

Definition sqlite3_finalize (stmt : sqlite3_stmt) (d : db) : db :=
  record (c_finalize stmt) d.

(** [sqlite3_exec] of the three transaction commands. *)
Definition sqlite3_exec (cmd : command) (d : db) : Z * db :=
  match cmd with
  | BEGIN_TRANSACTION =>
      match enter (c_exec cmd) d with
      | (Some f, d') => (f, d')
      | (None, d') =>
          match txn d' with
          | Some _ => (SQLITE_ERROR, d')
          | None => (SQLITE_OK, set_rows (rows d') (Some []) d')
          end
      end
  | END_TRANSACTION =>
      match enter (c_exec cmd) d with
      | (Some f, d') => (f, d')
      | (None, d') =>
          match txn d' with
          | Some pending => (SQLITE_OK, set_rows (rows d' ++ pending) None d')
          | None => (SQLITE_ERROR, d')
          end
      end
  | ROLLBACK => (SQLITE_OK, set_rows (rows d) None (record (c_exec cmd) d))
  end.

(** Closing the connection abandons an open transaction. *)
Definition sqlite3_close_v2 (d : db) : db :=
  set_rows (rows d) None (record c_close d).

(** A database file without rows, seen through a library that will
    fail as [plan] says. *)
Definition fresh (plan : list Z) : db :=
  {| rows := []; txn := None; params := fun _ => Null;
   faults := plan; journal := [] |}.

End SQLite.

Import SQLite.

(** ** Program state: the private globals and the world around them *)

Record State := {
  gSQLiteDatabase : sqlite3;
  gInsertStatement : sqlite3_stmt;
  gLogLevel : Z;
  gLogEntries : list tSL_LogEntry;
  gLogEntryCount : Z;
  gLogTimestamp : list ascii;
  (** the SQLite library and the database file *)
  database : db;
  (** how many times the wall clock has been read *)
  clock : nat
}.

Definition set_database (d : db) (s : State) : State :=
  {| gSQLiteDatabase := gSQLiteDatabase s; gInsertStatement := gInsertStatement s;
     gLogLevel := gLogLevel s; gLogEntries := gLogEntries s;
     gLogEntryCount := gLogEntryCount s; gLogTimestamp := gLogTimestamp s;
     database := d; clock := clock s |}.

Definition set_handles (h : sqlite3) (stmt : sqlite3_stmt) (s : State) : State :=
  {| gSQLiteDatabase := h; gInsertStatement := stmt;
     gLogLevel := gLogLevel s; gLogEntries := gLogEntries s;
     gLogEntryCount := gLogEntryCount s; gLogTimestamp := gLogTimestamp s;
     database := database s; clock := clock s |}.

Definition set_level (l : Z) (s : State) : State :=
  {| gSQLiteDatabase := gSQLiteDatabase s; gInsertStatement := gInsertStatement s;
     gLogLevel := l; gLogEntries := gLogEntries s;
     gLogEntryCount := gLogEntryCount s; gLogTimestamp := gLogTimestamp s;
     database := database s; clock := clock s |}.

Definition set_entries (es : list tSL_LogEntry) (s : State) : State :=
  {| gSQLiteDatabase := gSQLiteDatabase s; gInsertStatement := gInsertStatement s;
     gLogLevel := gLogLevel s; gLogEntries := es;
     gLogEntryCount := gLogEntryCount s; gLogTimestamp := gLogTimestamp s;
     database := database s; clock := clock s |}.

Definition set_count (n : Z) (s : State) : State :=
  {| gSQLiteDatabase := gSQLiteDatabase s; gInsertStatement := gInsertStatement s;
     gLogLevel := gLogLevel s; gLogEntries := gLogEntries s;
     gLogEntryCount := n; gLogTimestamp := gLogTimestamp s;
     database := database s; clock := clock s |}.

Definition set_session_timestamp (t : list ascii) (s : State) : State :=
  {| gSQLiteDatabase := gSQLiteDatabase s; gInsertStatement := gInsertStatement s;
     gLogLevel := gLogLevel s; gLogEntries := gLogEntries s;
     gLogEntryCount := gLogEntryCount s; gLogTimestamp := t;
     database := database s; clock := S (clock s) |}.

(** [uint32_t] arithmetic wraps. *)
Definition uint32 (z : Z) : Z := z mod 4294967296.

(** The conversion of a [uint32_t] to the [int] that [sqlite3_bind_int] takes. *)
Definition int_of_uint32 (z : Z) : Z :=
  if z <? 2147483648 then z else z - 4294967296.

(** The parameter bound from a character array: [sqlite3_bind_text
    (.., a, strlen (a), SQLITE_STATIC)]. *)
Definition bound_text (a : list ascii) : value :=
  if terminated a then Text (contents a) else TextOverrun a.

(** Sequencing of the source's [if (result == SQLITE_OK) { next }] steps. *)
Definition and_then (p : Z * db) (next : db -> Z * db) : Z * db :=
  if fst p =? SQLITE_OK then next (snd p) else p.

Notation "p '>>>' next" := (and_then p next) (at level 50, left associativity).

(** What the source does with the result of a step:
    [if (result == SQLITE_DONE) result = SQLITE_OK;]. *)
Definition eat_done (p : Z * db) : Z * db :=
  (if fst p =? SQLITE_DONE then SQLITE_OK else fst p, snd p).

Section Logger.

(** [SL_LOG_ENTRY_CACHE_SIZE] comes from [sqlite_logger_config.h], which is
    not part of the sources at hand: the number of slots of [gLogEntries],
    at least 1. *)
Variable SL_LOG_ENTRY_CACHE_SIZE : Z.

(** The wall clock: [now k] is the text that [gettimeofday], [localtime]
    and [strftime] produce at the [k]-th reading. *)
Variable now : nat -> list ascii.

(** [memset ((void* )gLogEntries, 0, sizeof (tSL_LogEntry) * SL_LOG_ENTRY_CACHE_SIZE)] *)
Definition cleared_entries : list tSL_LogEntry :=
  replicate (Z.to_nat SL_LOG_ENTRY_CACHE_SIZE) zero_entry.

(** The globals as their initializers leave them when the process starts. *)
Definition process_start (d : db) : State :=
  {| gSQLiteDatabase := db_null; gInsertStatement := stmt_null;
     gLogLevel := eSL_LogLevel_Info; gLogEntries := cleared_entries;
     gLogEntryCount := 0;
     gLogTimestamp := replicate SL_TIMESTAMP_STRING_LENGTH zero;
     database := d; clock := 0 |}.

(** [SL_GetTimestamp]: the text of the clock and its terminator are
    written at the start of the array (by [strftime] and two [strcat]);
    the rest of the array is left as it was.  Both callers pass an array
    and drop the result. *)
Definition SL_GetTimestamp (a : list ascii) (k : nat) : list ascii :=
  let t := contents (now k) in
  t ++ zero :: drop (S (length t)) a.

(** [SL_CreateTable] *)
Definition SL_CreateTable (s : State) : Z * State :=
  let s := set_session_timestamp (SL_GetTimestamp (gLogTimestamp s) (clock s)) s in
  match sqlite3_prepare_v2 stmt_schema (database s) with
  | (result, statement, d) =>
      if result =? SQLITE_OK then
        let p := eat_done (sqlite3_step statement d) in
        (fst p, set_database (sqlite3_finalize statement (snd p)) s)
      else (result, set_database d s)
  end.

(** [SL_CreateView]: the five commands differ only in their text. *)
Definition SL_CreateView (s : State) : Z * State :=
  match sqlite3_prepare_v2 stmt_schema (database s) with
  | (result, statement, d) =>
      if result =? SQLITE_OK then
        let p := eat_done (sqlite3_step statement d) in
        (fst p, set_database (sqlite3_finalize statement (snd p)) s)
      else (result, set_database d s)
  end.

(** What is left of an array [a] after [bytes] were written from its
    start on, as far as the array reaches. *)
Definition overwritten (bytes a : list ascii) : list ascii :=
  take (length a) (bytes ++ drop (length bytes) a).

(** The entry that [SL_AddLogEntry] leaves in a slot.  [SL_GetTimestamp]
    is handed the [timestamp] array of 32 characters and writes the clock
    text and its terminator without a bound: what it writes past the
    array lands in [message], the member that follows it in the
    structure, before the message is copied there.  The array then holds
    the first 32 characters of the clock text and no terminator.  The
    spill is followed no further than [message]: reaching [level] would
    take a clock text of 1056 characters, and [strftime] is given a bound
    of 32 for each of its two parts. *)
Definition SL_FillEntry (slot : tSL_LogEntry) (k : nat)
    (m : list ascii) (lvl : Z) (file func : option (list ascii)) (line : Z)
    (tg sd : option (list ascii)) : tSL_LogEntry :=
  let written := SL_GetTimestamp (timestamp slot) k in
  {| timestamp := take SL_TIMESTAMP_STRING_LENGTH written;
     message :=
       SL_CopyField
         (overwritten (drop SL_TIMESTAMP_STRING_LENGTH written) (message slot))
         m SL_MESSAGE_STRING_LENGTH;
     level := SL_CopyField (level slot) (SL_LevelString lvl) SL_LEVEL_STRING_LENGTH;
     fileName := SL_CopyOptional (fileName slot) file SL_FILE_NAME_STRING_LENGTH;
     functionName :=
       SL_CopyOptional (functionName slot) func SL_FUNCTION_NAME_STRING_LENGTH;
     lineNumber := line;
     tag := SL_CopyOptional (tag slot) tg SL_TAG_STRING_LENGTH;
     supplementalData :=
       SL_CopyOptional (supplementalData slot) sd SL_SUPPLEMENTAL_DATA_STRING_LENGTH |}.

(** [SL_AddLogEntry] writes slot [gLogEntryCount] and bumps the count.
    Its two callers pass a message that is not NULL.  An index outside
    the array (which the callers' guards exclude) writes nothing here. *)
Definition SL_AddLogEntry (s : State)
    (message : list ascii) (level : Z) (fileName functionName : option (list ascii))
    (lineNumber : Z) (tag supplementalData : option (list ascii)) : Z * State :=
  let i := Z.to_nat (gLogEntryCount s) in
  let slot := default zero_entry (gLogEntries s !! i) in
  let e := SL_FillEntry slot (clock s) message level fileName functionName
             lineNumber tag supplementalData in
  (SL_RESULT_SUCCESS,
   {| gSQLiteDatabase := gSQLiteDatabase s; gInsertStatement := gInsertStatement s;
      gLogLevel := gLogLevel s; gLogEntries := <[i := e]> (gLogEntries s);
      gLogEntryCount := uint32 (gLogEntryCount s + 1);
      gLogTimestamp := gLogTimestamp s;
      database := database s; clock := S (clock s) |}).

(** The body of the loop of [SL_ProcessTransaction]: eight binds, the
    step and the reset.  The tests [gLogEntries[i].fileName == NULL] (and
    the like) compare an array with NULL and never hold, so the four
    optional columns are always bound as text. *)
Definition SL_InsertEntry (stmt : sqlite3_stmt) (e : tSL_LogEntry) (d : db)
    : Z * db :=
  sqlite3_bind stmt 1 (bound_text (timestamp e)) d
  >>> sqlite3_bind stmt 2 (bound_text (message e))
  >>> sqlite3_bind stmt 3 (bound_text (level e))
  >>> sqlite3_bind stmt 4 (bound_text (fileName e))
  >>> sqlite3_bind stmt 5 (bound_text (functionName e))
  >>> sqlite3_bind stmt 6 (Integer (int_of_uint32 (lineNumber e)))
  >>> sqlite3_bind stmt 7 (bound_text (tag e))
  >>> sqlite3_bind stmt 8 (bound_text (supplementalData e))
  >>> (fun d => eat_done (sqlite3_step stmt d))
  >>> sqlite3_reset stmt.

(** The loop: entries in slot order, [break] at the first failure. *)
Fixpoint SL_InsertEntries (stmt : sqlite3_stmt) (es : list tSL_LogEntry)
    (d : db) : Z * db :=
  match es with
  | [] => (SQLITE_OK, d)
  | e :: rest =>
      let p := SL_InsertEntry stmt e d in
      if fst p =? SQLITE_OK then SL_InsertEntries stmt rest (snd p) else p
  end.

(** The entries that a flush writes: slots [0 .. gLogEntryCount - 1]. *)
Definition buffered (s : State) : list tSL_LogEntry :=
  take (Z.to_nat (gLogEntryCount s)) (gLogEntries s).

(** [SL_ProcessTransaction] *)
Definition SL_ProcessTransaction (s : State) : Z * State :=
  let b := sqlite3_exec BEGIN_TRANSACTION (database s) in
  if fst b =? SQLITE_OK then
    let p := SL_InsertEntries (gInsertStatement s) (buffered s) (snd b) in
    if fst p =? SQLITE_OK then
      let c := sqlite3_exec END_TRANSACTION (snd p) in
      (fst c, set_database (snd c) s)
    else
      (fst p, set_database (snd (sqlite3_exec ROLLBACK (snd p))) s)
  else (fst b, set_database (snd b) s).

(** The chain that creates the five views, stopping at the first failure. *)
Definition SL_CreateViews (s : State) : Z * State :=
  let v1 := SL_CreateView s in
  if fst v1 =? SL_RESULT_SUCCESS then
    let v2 := SL_CreateView (snd v1) in
    if fst v2 =? SL_RESULT_SUCCESS then
      let v3 := SL_CreateView (snd v2) in
      if fst v3 =? SL_RESULT_SUCCESS then
        let v4 := SL_CreateView (snd v3) in
        if fst v4 =? SL_RESULT_SUCCESS then SL_CreateView (snd v4) else v4
      else v3
    else v2
  else v1.

(** [SL_Initialize] *)
Definition SL_Initialize (path : option (list ascii)) (s : State) : Z * State :=
  let result :=
    match path with
    | None => EFAULT
    | Some p => if (strlen p =? 0)%nat then EINVAL else SL_RESULT_SUCCESS
    end in
  let result :=
    if result =? SL_RESULT_SUCCESS then
      match gSQLiteDatabase s with
      | db_null => result
      | db_handle => SL_RESULT_ALREADY_INITIALIZED
      end
    else result in
  if result =? SL_RESULT_SUCCESS then
    match sqlite3_open_v2 (database s) with
    | (result, handle, d) =>
        let s := set_database d (set_handles handle (gInsertStatement s) s) in
        if result =? SQLITE_OK then
          let t := SL_CreateTable s in
          if fst t =? SL_RESULT_SUCCESS then
            let v := SL_CreateViews (snd t) in
            if fst v =? SL_RESULT_SUCCESS then
              let s := set_entries cleared_entries (snd v) in
              match sqlite3_prepare_v2 stmt_insert (database s) with
              | (result, statement, d) =>
                  (result,
                   set_database d (set_handles (gSQLiteDatabase s) statement s))
              end
            else v
          else t
        else (result, s)
    end
  else (result, s).

(** [SL_Terminate] *)
Definition SL_Terminate (s : State) : Z * State :=
  match gSQLiteDatabase s with
  | db_handle =>
      let f :=
        if 0 <? gLogEntryCount s then
          let t := SL_ProcessTransaction s in
          if fst t =? SL_RESULT_SUCCESS then
            (fst t, set_entries cleared_entries (set_count 0 (snd t)))
          else t
        else (SL_RESULT_SUCCESS, s) in
      let s := snd f in
      let s :=
        match gInsertStatement s with
        | stmt_null => s
        | stmt =>
            set_handles (gSQLiteDatabase s) stmt_null
              (set_database (sqlite3_finalize stmt (database s)) s)
        end in
      (fst f,
       set_handles db_null (gInsertStatement s)
         (set_database (sqlite3_close_v2 (database s)) s))
  | db_null => (SL_RESULT_NOT_INITIALIZED, s)
  end.

(** [SL_SetLogLevel] *)
Definition SL_SetLogLevel (level : Z) (s : State) : Z * State :=
  if (eSL_LogLevel_Diagnostic <=? level) && (level <=? eSL_LogLevel_None)
  then (SL_RESULT_SUCCESS, set_level level s)
  else (EINVAL, s).

(** [SL_GetLogLevel]: [level] is the caller's variable, [None] for a NULL
    pointer; the second component is the variable after the call. *)
Definition SL_GetLogLevel (level : option Z) (s : State) : Z * option Z :=
  match level with
  | None => (EFAULT, None)
  | Some _ => (SL_RESULT_SUCCESS, Some (gLogLevel s))
  end.

(** [SL_Log] *)
Definition SL_Log (s : State)
    (message : option (list ascii)) (level : Z)
    (fileName functionName : option (list ascii)) (lineNumber : Z)
    (tag supplementalData : option (list ascii)) : Z * State :=
  let result :=
    match message with
    | None => EFAULT
    | Some m => if (strlen m =? 0)%nat then EINVAL else SL_RESULT_SUCCESS
    end in
  let result :=
    if (level <? eSL_LogLevel_Diagnostic) || (eSL_LogLevel_None <? level)
    then EINVAL else result in
  let result :=
    if result =? SL_RESULT_SUCCESS then
      match gSQLiteDatabase s with
      | db_null => SL_RESULT_NOT_INITIALIZED
      | db_handle => result
      end
    else result in
  if result =? SL_RESULT_SUCCESS then
    if gLogLevel s <=? level then
      let m := default [] message in
      if gLogEntryCount s <? SL_LOG_ENTRY_CACHE_SIZE - 1 then
        SL_AddLogEntry s m level fileName functionName lineNumber tag
          supplementalData
      else
        let t := SL_ProcessTransaction s in
        if fst t =? SL_RESULT_SUCCESS then
          SL_AddLogEntry (set_entries cleared_entries (set_count 0 (snd t)))
            m level fileName functionName lineNumber tag supplementalData
        else t
    else (result, s)
  else (result, s).

End Logger.

(** ** [SL_Result_String] *)

Section ResultString.

(** [strerror] of the C library. *)
Variable strerror : Z -> string.

(** The index [(uint32_t)(-1.0 * resultCode)] is computed for codes
    between -31 and -1 only, where the product and the conversion are
    exact.  [None] is a read past the end of [kSL_ResultStrings]. *)
Definition SL_Result_String (resultCode : Z) : option string :=
  if SL_RESULT_SUCCESS <? resultCode then Some (strerror resultCode)
  else if (resultCode <=? SL_RESULT_RESERVED_START)
          && (SL_RESULT_RESERVED_END <=? resultCode)
  then kSL_ResultStrings !! Z.to_nat (uint32 (- resultCode))
  else kSL_ResultStrings !! 0%nat.

End ResultString.

(** ** Calls, runs and the vocabulary of the statements *)

(** The seven arguments of one [SL_Log] call. *)
Record LogCall := {
  arg_message : option (list ascii);
  arg_level : Z;
  arg_fileName : option (list ascii);
  arg_functionName : option (list ascii);
  arg_lineNumber : Z;
  arg_tag : option (list ascii);
  arg_supplementalData : option (list ascii)
}.

(** The row that the eight binds of [SL_InsertEntry] make of an entry. *)
Definition row_of (e : tSL_LogEntry) : row :=
  [ bound_text (timestamp e);
    bound_text (message e);
    bound_text (level e);
    bound_text (fileName e);
    bound_text (functionName e);
    Integer (int_of_uint32 (lineNumber e));
    bound_text (tag e);
    bound_text (supplementalData e) ].

Definition is_begin (c : call) : bool :=
  match c with
  | c_exec BEGIN_TRANSACTION => true
  | _ => false
  end.

(** The flushes started so far: the [BEGIN TRANSACTION] of the journal. *)
Definition flushes (d : db) : nat := length (List.filter is_begin (journal d)).

Definition is_rollback (c : call) : bool :=
  match c with
  | c_exec ROLLBACK => true
  | _ => false
  end.

(** The rollbacks issued so far: the [ROLLBACK] of the journal. *)
Definition rollbacks (d : db) : nat :=
  length (List.filter is_rollback (journal d)).

(** The outcome of a call is either success or an error code. *)
Definition outcome_ok (r : Z) : Prop := r = SQLITE_OK \/ is_error r = true.

(** What a call other than [BEGIN]/[END]/[ROLLBACK] leaves alone. *)
Definition same_tables (d d' : db) : Prop :=
  rows d' = rows d /\ txn d' = txn d /\ flushes d' = flushes d.

(** What every call between [BEGIN] and [END]/[ROLLBACK] respects: no
    flush is started and, inside a transaction, the committed rows stay
    as they are and the transaction stays open. *)
Definition in_txn (d d' : db) : Prop :=
  flushes d' = flushes d
  /\ ((exists p, txn d = Some p) ->
      rows d' = rows d /\ exists q, txn d' = Some q).

(** What [SL_CreateTable] and [SL_CreateView] leave alone: everything
    but the session timestamp, the clock and the journal of the database. *)
Definition schema_frame (s s' : State) : Prop :=
  gSQLiteDatabase s' = gSQLiteDatabase s
  /\ gInsertStatement s' = gInsertStatement s
  /\ gLogLevel s' = gLogLevel s
  /\ gLogEntries s' = gLogEntries s
  /\ gLogEntryCount s' = gLogEntryCount s
  /\ same_tables (database s) (database s').

(** The text of an optional argument: nothing for a NULL pointer. *)
Definition text_of (o : option (list ascii)) : list ascii :=
  match o with
  | Some s => contents s
  | None => []
  end.

(** An optional argument fits an array of [bound] characters with its
    terminator. *)
Definition fits (o : option (list ascii)) (bound : nat) : Prop :=
  match o with
  | Some s => (strlen s < bound)%nat
  | None => True
  end.



(** The arguments pass the checks of [SL_Log]: a message that is neither
    NULL nor empty and a level of the enumeration. *)
Definition valid_call (c : LogCall) : bool :=
  match arg_message c with
  | Some m => negb (strlen m =? 0)%nat
  | None => false
  end
  && (eSL_LogLevel_Diagnostic <=? arg_level c)
  && (arg_level c <=? eSL_LogLevel_None).

(** The level gate in the words of the specification (section 4.1):
    [shouldCapture (entryLevel, currentThreshold)] is
    [entryLevel >= currentThreshold]. *)
Definition shouldCapture (entryLevel currentThreshold : Z) : bool :=
  currentThreshold <=? entryLevel.

(** An accepted call: valid arguments that pass the level gate. *)
Definition accepted (threshold : Z) (c : LogCall) : bool :=
  valid_call c && shouldCapture (arg_level c) threshold.

(** The session is initialized, as a successful [SL_Initialize] leaves it:
    the database is open and the insert statement is prepared. *)
Definition initialized (s : State) : Prop :=
  gSQLiteDatabase s = db_handle /\ gInsertStatement s = stmt_insert.

(** The threshold is a level of the enumeration. *)
Definition level_ok (s : State) : Prop :=
  eSL_LogLevel_Diagnostic <= gLogLevel s <= eSL_LogLevel_None.

(** Every array of the entry has the length the structure gives it. *)
Definition entry_shape (e : tSL_LogEntry) : Prop :=
  length (message e) = SL_MESSAGE_STRING_LENGTH
  /\ length (level e) = SL_LEVEL_STRING_LENGTH
  /\ length (fileName e) = SL_FILE_NAME_STRING_LENGTH
  /\ length (functionName e) = SL_FUNCTION_NAME_STRING_LENGTH
  /\ length (tag e) = SL_TAG_STRING_LENGTH
  /\ length (supplementalData e) = SL_SUPPLEMENTAL_DATA_STRING_LENGTH.

Section Vocabulary.

Variable SL_LOG_ENTRY_CACHE_SIZE : Z.
Variable now : nat -> list ascii.

(** A cache of at least one slot whose count fits a [uint32_t]. *)
Definition config_ok : Prop := 1 <= SL_LOG_ENTRY_CACHE_SIZE <= 4294967295.

(** The buffer as every entry point leaves it: one slot per cache
    position, a count within the cache, and cleared slots from the count
    on. *)
Definition buffer_ok (s : State) : Prop :=
  length (gLogEntries s) = Z.to_nat SL_LOG_ENTRY_CACHE_SIZE
  /\ 0 <= gLogEntryCount s <= SL_LOG_ENTRY_CACHE_SIZE
  /\ drop (Z.to_nat (gLogEntryCount s)) (gLogEntries s)
     = replicate (Z.to_nat SL_LOG_ENTRY_CACHE_SIZE - Z.to_nat (gLogEntryCount s))
         zero_entry.

(** The buffer is empty: no entry counted, every slot cleared. *)
Definition buffer_empty (s : State) : Prop :=
  gLogEntryCount s = 0
  /\ gLogEntries s = cleared_entries SL_LOG_ENTRY_CACHE_SIZE.

Definition SL_LogCall (s : State) (c : LogCall) : Z * State :=
  SL_Log SL_LOG_ENTRY_CACHE_SIZE now s
    (arg_message c) (arg_level c) (arg_fileName c) (arg_functionName c)
    (arg_lineNumber c) (arg_tag c) (arg_supplementalData c).

(** A run of [SL_Log] calls: the state after the last one. *)
Fixpoint SL_LogAll (cs : list LogCall) (s : State) : State :=
  match cs with
  | [] => s
  | c :: rest => SL_LogAll rest (snd (SL_LogCall s c))
  end.

(** The result codes of the same run, in call order. *)
Fixpoint SL_LogResults (cs : list LogCall) (s : State) : list Z :=
  match cs with
  | [] => []
  | c :: rest =>
      fst (SL_LogCall s c) :: SL_LogResults rest (snd (SL_LogCall s c))
  end.

(** The entry that a call leaves in a cleared slot at clock reading [k]. *)
Definition entry_of (k : nat) (c : LogCall) : tSL_LogEntry :=
  SL_FillEntry now zero_entry k
    (default [] (arg_message c)) (arg_level c) (arg_fileName c)
    (arg_functionName c) (arg_lineNumber c) (arg_tag c)
    (arg_supplementalData c).

(** The entries that a run appends, in call order: one for every accepted
    call that returns [SL_RESULT_SUCCESS]. *)
Fixpoint appended (cs : list LogCall) (s : State) : list tSL_LogEntry :=
  match cs with
  | [] => []
  | c :: rest =>
      let p := SL_LogCall s c in
      (if accepted (gLogLevel s) c && (fst p =? SL_RESULT_SUCCESS)
       then [entry_of (clock s) c] else [])
      ++ appended rest (snd p)
  end.

(** Everything recorded and not lost: the committed rows, followed by the
    rows that the buffered entries will make. *)
Definition recorded (s : State) : list row :=
  rows (database s) ++ map row_of (buffered s).

(** The call captured its entry: it is the last buffered entry, and one
    more row is recorded than before. *)
Definition captured (s : State) (c : LogCall) (s' : State) : Prop :=
  last (buffered s') = Some (entry_of (clock s) c)
  /\ recorded s' = recorded s ++ [row_of (entry_of (clock s) c)].

(** The call took the flush path and the flush failed: the result is the
    code of [SL_ProcessTransaction] and only the database moved. *)
Definition flush_failed (s : State) (p : Z * State) : Prop :=
  ~ gLogEntryCount s < SL_LOG_ENTRY_CACHE_SIZE - 1
  /\ p = SL_ProcessTransaction s
  /\ fst p <> SL_RESULT_SUCCESS.



(** What holds of the globals between any two calls: the buffer is well
    formed, the count stays below the last slot (for a cache of one slot,
    at one), the threshold is a level of the enumeration, and the insert
    statement is prepared only in an open session. *)
Definition session_ok (s : State) : Prop :=
  buffer_ok s
  /\ gLogEntryCount s <= Z.max (SL_LOG_ENTRY_CACHE_SIZE - 1) 1
  /\ level_ok s
  /\ (gInsertStatement s = stmt_null \/ initialized s).

End Vocabulary.

(** ** Concrete sessions

    A cache of three slots, a clock that always shows the same text, and
    database plans that make chosen calls fail.  [SL_Initialize] makes
    fourteen fallible calls (the open, a prepare and a step for the table
    and each of the five views, the prepare of the insert), so the first
    call of a later flush is number fourteen of the plan, counting from
    zero. *)

Module Scenario.

Definition cache : Z := 3.

Definition wall_clock (k : nat) : list ascii :=
  of_string "2022-02-19 10:00:00.000000 UTC".

Definition path : option (list ascii) := Some (of_string "log.sqlite3").

Definition call (m : string) (lvl : Z) : LogCall :=
  {| arg_message := Some (of_string m);
     arg_level := lvl;
     arg_fileName := Some (of_string "main.c");
     arg_functionName := Some (of_string "main");
     arg_lineNumber := 42;
     arg_tag := None;
     arg_supplementalData := None |}.

Definition log (s : State) (c : LogCall) : Z * State :=
  SL_LogCall cache wall_clock s c.

(** The process starts and initializes the logger. *)
Definition opened (plan : list Z) : State :=
  snd (SL_Initialize cache wall_clock path (process_start cache (fresh plan))).

(** Two info messages fill the cache up to the flush threshold. *)
Definition filled (plan : list Z) : State :=
  SL_LogAll cache wall_clock
    [call "first" eSL_LogLevel_Info; call "second" eSL_LogLevel_Info]
    (opened plan).

(** The second row of the next flush fails at its step with
    [SQLITE_CONSTRAINT]: call 14 is the [BEGIN], calls 15 to 24 are the
    first row, calls 25 to 32 the binds of the second. *)
Definition step_fails : list Z := replicate 33 0 ++ [19].

(** The commit of the next flush of two rows fails with [SQLITE_BUSY]:
    call 14 is the [BEGIN], calls 15 to 34 are the two rows, call 35 is
    the [END]. *)
Definition commit_fails : list Z := replicate 35 0 ++ [5].

(** The step that creates the table fails with [SQLITE_IOERR]: call 0 is
    the open, call 1 the prepare, call 2 the step. *)
Definition create_table_fails : list Z := [0; 0; 10].

(** The [BEGIN] of the next flush fails with [SQLITE_BUSY]. *)
Definition begin_fails : list Z := replicate 14 0 ++ [5].

(** A session that logged one entry and whose teardown flush failed. *)
Definition torn_down : State :=
  snd (SL_Terminate cache
         (snd (log (opened begin_fails) (call "lost" eSL_LogLevel_Error)))).

(** The session that [SL_Initialize] opens after that teardown. *)
Definition reopened : State :=
  snd (SL_Initialize cache wall_clock path torn_down).

(** An open session whose threshold was set to None, documented as
    the level that logs nothing. *)
Definition silenced : State :=
  snd (SL_SetLogLevel eSL_LogLevel_None (opened [])).

(** The threshold is raised before the logger is initialized. *)
Definition raised_then_opened : State :=
  snd (SL_Initialize cache wall_clock path
         (snd (SL_SetLogLevel eSL_LogLevel_Warning
                 (process_start cache (fresh []))))).

(** Four accepted calls: the third one finds the buffer at its threshold. *)
Definition four_calls : list LogCall :=
  [ call "first" eSL_LogLevel_Info; call "second" eSL_LogLevel_Warning;
    call "third" eSL_LogLevel_Error; call "fourth" eSL_LogLevel_Info ].

(** The message column of a row. *)
Definition message_of (r : row) : option value := r !! 1%nat.

(** The level array of a slot that still holds the label of a warning. *)
Definition stale_level : list ascii :=
  of_string "Warning" ++ replicate 9 zero.

(** A clock whose text has 34 characters: a zone abbreviation of seven. *)
Definition long_clock (k : nat) : list ascii :=
  of_string "2022-02-19 10:00:00.000000 <+0545>".

(** A text of [n] letters. *)
Definition letters (n : nat) : list ascii := replicate n "a"%char.

End Scenario.

(** * Properties *)

(** ** C strings *)

Lemma strlen_le_length (s : list ascii) : (strlen s <= length s)%nat.
Proof.
  induction s as [|c r IH]; simpl; [lia|].
  destruct (is_nul c); simpl; lia.
Qed.

Lemma strlen_take (s : list ascii) (k : nat) :
  (k <= strlen s)%nat -> strlen (take k s) = k.
Proof.
  revert k; induction s as [|c r IH]; intros [|k]; simpl; try lia.
  destruct (is_nul c); simpl; [lia|].
  intros H. rewrite IH; lia.
Qed.

Lemma length_contents (s : list ascii) : length (contents s) = strlen s.
Proof.
  unfold contents. rewrite length_take. pose proof (strlen_le_length s). lia.
Qed.

Lemma strlen_contents (s : list ascii) : strlen (contents s) = strlen s.
Proof. unfold contents. now apply strlen_take. Qed.

Lemma strlen_app_nul (t rest : list ascii) :
  strlen t = length t -> strlen (t ++ zero :: rest) = length t.
Proof.
  induction t as [|c r IH]; simpl; [reflexivity|].
  destruct (is_nul c); simpl; [discriminate|].
  intros H. f_equal. apply IH. lia.
Qed.

Lemma length_strncpy (dst src : list ascii) (n : nat) :
  length (strncpy dst src n) = Nat.max n (length dst).
Proof.
  unfold strncpy.
  rewrite length_app, length_take, length_app, length_replicate, length_drop.
  lia.
Qed.

(** A copy of [n] characters from a string that has at least [n]. *)
Lemma strncpy_long (dst src : list ascii) (n : nat) :
  (n <= strlen src)%nat ->
  strncpy dst src n = take n src ++ drop n dst.
Proof.
  intros H. unfold strncpy. f_equal.
  rewrite take_app_le by (fold (contents src); rewrite length_contents; lia).
  rewrite take_take. f_equal. lia.
Qed.

(** A copy of [n] characters from a string that has fewer. *)
Lemma strncpy_short (dst src : list ascii) (n : nat) :
  (strlen src < n)%nat ->
  strncpy dst src n
  = contents src ++ replicate (n - strlen src) zero ++ drop n dst.
Proof.
  intros H. unfold strncpy. fold (contents src).
  rewrite take_app_ge by (rewrite length_contents; lia).
  rewrite length_contents, take_replicate, <- app_assoc.
  do 3 f_equal. lia.
Qed.

Lemma SL_CopyCount_le (s : list ascii) (bound : nat) :
  (SL_CopyCount s bound <= bound)%nat.
Proof.
  unfold SL_CopyCount. destruct (Nat.ltb_spec (strlen s) (bound - 1)); lia.
Qed.

(** No copy of [SL_AddLogEntry] writes past the end of its array. *)
Lemma length_SL_CopyField (field s : list ascii) (bound : nat) :
  length field = bound -> length (SL_CopyField field s bound) = bound.
Proof.
  intros H. unfold SL_CopyField. rewrite length_strncpy.
  pose proof (SL_CopyCount_le s bound). lia.
Qed.

(** A string shorter than the array is stored whole, and terminated, in
    an array that was cleared. *)
Lemma SL_CopyField_fits (s : list ascii) (bound : nat) :
  (strlen s < bound)%nat ->
  SL_CopyField (replicate bound zero) s bound
  = contents s ++ replicate (bound - strlen s) zero.
Proof.
  intros H. unfold SL_CopyField, SL_CopyCount.
  destruct (Nat.ltb_spec (strlen s) (bound - 1)).
  - rewrite strncpy_long by lia. fold (contents s).
    now rewrite drop_replicate.
  - rewrite strncpy_short by lia.
    rewrite drop_replicate, Nat.sub_diag. simpl. now rewrite app_nil_r.
Qed.

(** A string with [bound] characters or more is stored as its first
    [bound] characters, which fill the array and leave no terminator. *)
Lemma SL_CopyField_overlong (field s : list ascii) (bound : nat) :
  length field = bound -> (bound <= strlen s)%nat ->
  SL_CopyField field s bound = take bound s
  /\ terminated (SL_CopyField field s bound) = false.
Proof.
  intros Hlen Hs. unfold SL_CopyField, SL_CopyCount.
  destruct (Nat.ltb_spec (strlen s) (bound - 1)); [lia|].
  rewrite strncpy_long by lia.
  rewrite drop_ge by lia. rewrite app_nil_r. split; [reflexivity|].
  unfold terminated. rewrite strlen_take by lia.
  pose proof (strlen_le_length s).
  rewrite length_take. apply Nat.ltb_ge. lia.
Qed.

(** Writing over an array from its start leaves its length alone, and
    writing nothing leaves the array alone. *)
Lemma length_overwritten (bytes a : list ascii) :
  length (overwritten bytes a) = length a.
Proof.
  unfold overwritten. rewrite length_take, length_app, length_drop. lia.
Qed.

Lemma overwritten_nil (a : list ascii) : overwritten [] a = a.
Proof.
  unfold overwritten. cbn [app length]. rewrite drop_0. apply firstn_all.
Qed.

(** ** The SQLite model *)

Lemma enter_spec (c : call) (d : db) :
  rows (snd (enter c d)) = rows d
  /\ txn (snd (enter c d)) = txn d
  /\ params (snd (enter c d)) = params d
  /\ journal (snd (enter c d)) = journal d ++ [c]
  /\ faults (snd (enter c d)) = tail (faults d)
  /\ (forall f, fst (enter c d) = Some f -> is_error f = true).
Proof.
  unfold enter. destruct (faults d) as [|f fs]; simpl.
  - repeat split; intros; discriminate.
  - repeat split. intros g. destruct (is_error f) eqn:E; intros [= <-]. exact E.
Qed.

Lemma is_error_not_ok (f : Z) : is_error f = true -> f <> SQLITE_OK.
Proof. intros H ->. discriminate H. Qed.

Lemma is_error_not_done (f : Z) : is_error f = true -> f <> SQLITE_DONE.
Proof. intros H ->. discriminate H. Qed.

Lemma length_filter_begin_snoc (j : list call) (c : call) :
  length (List.filter is_begin (j ++ [c]))
  = (length (List.filter is_begin j) + (if is_begin c then 1 else 0))%nat.
Proof.
  rewrite List.filter_app, length_app. simpl. now destruct (is_begin c).
Qed.

Lemma same_tables_refl (d : db) : same_tables d d.
Proof. now repeat split. Qed.

Lemma same_tables_trans (a b c : db) :
  same_tables a b -> same_tables b c -> same_tables a c.
Proof. unfold same_tables. intros (?&?&?) (?&?&?). repeat split; congruence. Qed.

Lemma enter_same_tables (c : call) (d : db) :
  is_begin c = false -> same_tables d (snd (enter c d)).
Proof.
  intros Hc. destruct (enter_spec c d) as (Hr & Ht & _ & Hj & _).
  repeat split; trivial. unfold flushes. rewrite Hj, length_filter_begin_snoc, Hc. lia.
Qed.

Lemma sqlite3_bind_spec (stmt : sqlite3_stmt) (k : nat) (v : value) (d : db) :
  same_tables d (snd (sqlite3_bind stmt k v d))
  /\ outcome_ok (fst (sqlite3_bind stmt k v d))
  /\ (fst (sqlite3_bind stmt k v d) = SQLITE_OK ->
      stmt <> stmt_null
      /\ forall i, params (snd (sqlite3_bind stmt k v d)) i
                   = if (i =? k)%nat then v else params d i).
Proof.
  assert (Hnull : same_tables d (record (c_bind k) d)).
  { repeat split. unfold flushes, record. simpl. rewrite length_filter_begin_snoc. simpl. lia. }
  pose proof (enter_same_tables (c_bind k) d eq_refl) as Hs.
  destruct (enter_spec (c_bind k) d) as (_ & _ & Hp & _ & _ & He).
  unfold sqlite3_bind.
  destruct stmt; simpl.
  - split; [exact Hnull|]. split; [right; reflexivity|]. discriminate.
  - destruct (enter (c_bind k) d) as [[f|] d']; simpl in *.
    + split; [exact Hs|]. split; [right; now apply He|].
      intros ->. now specialize (He _ eq_refl).
    + split; [exact Hs|]. split; [now left|]. intros _. split; [discriminate|].
      intros i. now rewrite Hp.
  - destruct (enter (c_bind k) d) as [[f|] d']; simpl in *.
    + split; [exact Hs|]. split; [right; now apply He|].
      intros ->. now specialize (He _ eq_refl).
    + split; [exact Hs|]. split; [now left|]. intros _. split; [discriminate|].
      intros i. now rewrite Hp.
Qed.

Lemma record_same_tables (c : call) (d : db) :
  is_begin c = false -> same_tables d (record c d).
Proof.
  intros Hc. repeat split. unfold flushes, record. simpl.
  rewrite length_filter_begin_snoc, Hc. lia.
Qed.

Lemma sqlite3_reset_spec (stmt : sqlite3_stmt) (d : db) :
  same_tables d (snd (sqlite3_reset stmt d))
  /\ outcome_ok (fst (sqlite3_reset stmt d))
  /\ params (snd (sqlite3_reset stmt d)) = params d.
Proof.
  pose proof (enter_same_tables c_reset d eq_refl) as Hs.
  destruct (enter_spec c_reset d) as (_ & _ & Hp & _ & _ & He).
  unfold sqlite3_reset.
  destruct (enter c_reset d) as [[f|] d']; simpl in *.
  - split; [exact Hs|]. split; [right; now apply He|exact Hp].
  - split; [exact Hs|]. split; [now left|exact Hp].
Qed.

(** A step, with [SQLITE_DONE] eaten as the source does. *)
Lemma sqlite3_step_spec (stmt : sqlite3_stmt) (d : db) (pending : list row) :
  txn d = Some pending ->
  let r := eat_done (sqlite3_step stmt d) in
  outcome_ok (fst r)
  /\ rows (snd r) = rows d
  /\ flushes (snd r) = flushes d
  /\ (exists q, txn (snd r) = Some q)
  /\ (fst r = SQLITE_OK -> stmt = stmt_insert ->
      txn (snd r) = Some (pending ++ [bound_row d])).
Proof.
  intros Ht.
  pose proof (enter_same_tables (c_step stmt) d eq_refl) as (Hr & Ht' & Hf).
  destruct (enter_spec (c_step stmt) d) as (_ & _ & Hp & _ & _ & He).
  pose proof (record_same_tables (c_step stmt) d eq_refl) as (Hr0 & Ht0 & Hf0).
  unfold sqlite3_step, eat_done.
  destruct stmt; simpl.
  - repeat split; trivial; [right; reflexivity|eauto|discriminate].
  - destruct (enter (c_step stmt_schema) d) as [[f|] d']; simpl in *.
    + specialize (He _ eq_refl).
      destruct (Z.eqb_spec f SQLITE_DONE) as [->|_]; [discriminate He|].
      repeat split; trivial; [right; exact He|rewrite Ht', Ht; eauto|discriminate].
    + repeat split; trivial; [now left|rewrite Ht', Ht; eauto|discriminate].
  - destruct (enter (c_step stmt_insert) d) as [[f|] d']; simpl in *.
    + specialize (He _ eq_refl).
      destruct (Z.eqb_spec f SQLITE_DONE) as [->|_]; [discriminate He|].
      repeat split; trivial; [right; exact He|rewrite Ht', Ht; eauto|].
      intros ->. discriminate He.
    + rewrite Ht', Ht. simpl.
      repeat split; trivial; [now left|eauto|].
      intros _ _. unfold bound_row. now rewrite Hp.
Qed.

(** ** Sequencing *)

Lemma and_then_ok (p : Z * db) (next : db -> Z * db) :
  fst (p >>> next) = SQLITE_OK ->
  fst p = SQLITE_OK
  /\ fst (next (snd p)) = SQLITE_OK
  /\ p >>> next = next (snd p).
Proof.
  unfold and_then. destruct (Z.eqb_spec (fst p) SQLITE_OK); intros H;
    [auto | contradiction].
Qed.

Lemma and_then_cases (p : Z * db) (next : db -> Z * db) :
  (fst p = SQLITE_OK /\ p >>> next = next (snd p))
  \/ (fst p <> SQLITE_OK /\ p >>> next = p).
Proof.
  unfold and_then. destruct (Z.eqb_spec (fst p) SQLITE_OK); auto.
Qed.

Lemma in_txn_refl (d : db) : in_txn d d.
Proof. split; [reflexivity|]. intros H. now split. Qed.

Lemma in_txn_trans (a b c : db) : in_txn a b -> in_txn b c -> in_txn a c.
Proof.
  intros [Hf1 H1] [Hf2 H2]. split; [congruence|].
  intros Ha. destruct (H1 Ha) as [Hr1 Hb]. destruct (H2 Hb) as [Hr2 Hc].
  split; [congruence|exact Hc].
Qed.

Lemma same_tables_in_txn (d d' : db) : same_tables d d' -> in_txn d d'.
Proof. intros (Hr & Ht & Hf). split; trivial. intros Hp. now rewrite Ht. Qed.

Lemma and_then_in_txn (d : db) (p : Z * db) (next : db -> Z * db) :
  in_txn d (snd p) -> (forall x, in_txn x (snd (next x))) ->
  in_txn d (snd (p >>> next)).
Proof.
  intros Hp Hn. destruct (and_then_cases p next) as [[_ ->]|[_ ->]]; trivial.
  eapply in_txn_trans; eauto.
Qed.

Lemma and_then_outcome (p : Z * db) (next : db -> Z * db) :
  outcome_ok (fst p) -> (forall x, outcome_ok (fst (next x))) ->
  outcome_ok (fst (p >>> next)).
Proof.
  intros Hp Hn. destruct (and_then_cases p next) as [[_ ->]|[_ ->]]; trivial.
Qed.

Lemma sqlite3_bind_in_txn stmt k v d : in_txn d (snd (sqlite3_bind stmt k v d)).
Proof. apply same_tables_in_txn, sqlite3_bind_spec. Qed.

Lemma sqlite3_reset_in_txn stmt d : in_txn d (snd (sqlite3_reset stmt d)).
Proof. apply same_tables_in_txn, sqlite3_reset_spec. Qed.

Lemma sqlite3_step_flushes stmt d :
  flushes (snd (eat_done (sqlite3_step stmt d))) = flushes d.
Proof.
  pose proof (enter_same_tables (c_step stmt) d eq_refl) as (_ & _ & Hf).
  pose proof (record_same_tables (c_step stmt) d eq_refl) as (_ & _ & Hf0).
  unfold sqlite3_step, eat_done.
  destruct stmt; simpl; trivial;
    destruct (enter (c_step _) d) as [[f|] d']; simpl in *; trivial.
  now destruct (txn d').
Qed.

Lemma sqlite3_step_in_txn stmt d : in_txn d (snd (eat_done (sqlite3_step stmt d))).
Proof.
  split; [apply sqlite3_step_flushes|].
  intros [p Hp]. now destruct (sqlite3_step_spec stmt d p Hp) as (_ & Hr & _ & Hq & _).
Qed.

Lemma sqlite3_step_outcome stmt d : outcome_ok (fst (eat_done (sqlite3_step stmt d))).
Proof.
  destruct (enter_spec (c_step stmt) d) as (_ & _ & _ & _ & _ & He).
  unfold sqlite3_step, eat_done.
  destruct stmt; simpl; [right; reflexivity | |];
    (destruct (enter (c_step _) d) as [[f|] d']; simpl in *;
     [specialize (He _ eq_refl);
      destruct (Z.eqb_spec f SQLITE_DONE) as [->|_]; [discriminate He|now right]
     |now left]).
Qed.

(** ** The insert loop *)

Arguments SL_InsertEntry : simpl never.
Arguments sqlite3_bind : simpl never.
Arguments sqlite3_step : simpl never.
Arguments sqlite3_reset : simpl never.
Arguments sqlite3_exec : simpl never.
Arguments enter : simpl never.

Lemma SL_InsertEntry_in_txn stmt e d : in_txn d (snd (SL_InsertEntry stmt e d)).
Proof.
  unfold SL_InsertEntry.
  repeat (apply and_then_in_txn;
          [|intros; first [apply sqlite3_bind_in_txn | apply sqlite3_reset_in_txn
                          | apply sqlite3_step_in_txn]]).
  apply sqlite3_bind_in_txn.
Qed.

Lemma SL_InsertEntry_outcome stmt e d : outcome_ok (fst (SL_InsertEntry stmt e d)).
Proof.
  unfold SL_InsertEntry.
  repeat (apply and_then_outcome;
          [|intros; first [apply sqlite3_bind_spec | apply sqlite3_reset_spec
                          | apply sqlite3_step_outcome]]).
  apply sqlite3_bind_spec.
Qed.

(** A successful pass through the loop body adds the row of the entry to
    the open transaction. *)
(** A bind that succeeded: name the database it leaves, keeping only what
    the bind did to the transaction and to the parameters. *)
Ltac bound_ok H :=
  match type of H with
  | fst (sqlite3_bind stmt_insert ?k ?v ?x) = SQLITE_OK =>
      let T := fresh "T" in
      let P := fresh "P" in
      let y := fresh "d" in
      let Ey := fresh "E" in
      destruct (sqlite3_bind_spec stmt_insert k v x) as ((_ & T & _) & _ & P);
      specialize (P H) as [_ P]; clear H;
      remember (snd (sqlite3_bind stmt_insert k v x)) as y eqn:Ey; clear Ey
  end.

Lemma SL_InsertEntry_ok e d pending :
  txn d = Some pending ->
  fst (SL_InsertEntry stmt_insert e d) = SQLITE_OK ->
  txn (snd (SL_InsertEntry stmt_insert e d)) = Some (pending ++ [row_of e]).
Proof.
  intros Ht Hok. unfold SL_InsertEntry in *.
  apply and_then_ok in Hok as (Hok & _ & ->).
  apply and_then_ok in Hok as (Hok & Hstep & E9). rewrite E9. clear E9.
  cbv beta in *.
  apply and_then_ok in Hok as (Hok & H8 & E8). rewrite E8 in *. clear E8.
  apply and_then_ok in Hok as (Hok & H7 & E7). rewrite E7 in *. clear E7.
  apply and_then_ok in Hok as (Hok & H6 & E6). rewrite E6 in *. clear E6.
  apply and_then_ok in Hok as (Hok & H5 & E5). rewrite E5 in *. clear E5.
  apply and_then_ok in Hok as (Hok & H4 & E4). rewrite E4 in *. clear E4.
  apply and_then_ok in Hok as (Hok & H3 & E3). rewrite E3 in *. clear E3.
  apply and_then_ok in Hok as (Hok & H2 & E2). rewrite E2 in *. clear E2.
  bound_ok Hok. bound_ok H2. bound_ok H3. bound_ok H4.
  bound_ok H5. bound_ok H6. bound_ok H7. bound_ok H8.
  match type of Hstep with
  | fst (eat_done (sqlite3_step stmt_insert ?x)) = SQLITE_OK =>
      assert (Tx : txn x = Some pending) by congruence;
      destruct (sqlite3_step_spec stmt_insert x pending Tx) as (_ & _ & _ & _ & S);
      specialize (S Hstep eq_refl)
  end.
  match goal with
  | |- txn (snd (sqlite3_reset ?st ?x)) = _ =>
      destruct (sqlite3_reset_spec st x) as ((_ & R & _) & _ & _); rewrite R, S
  end.
  do 2 f_equal. unfold bound_row, row_of. cbn [map seq].
  repeat match goal with
  | H : forall i : nat, params _ i = _ |- _ => rewrite !H; cbn [Nat.eqb]; clear H
  end.
  reflexivity.
Qed.

Lemma SL_InsertEntry_stmt stmt e d :
  fst (SL_InsertEntry stmt e d) = SQLITE_OK -> stmt <> stmt_null.
Proof.
  intros Hok. unfold SL_InsertEntry in Hok.
  repeat (apply and_then_ok in Hok as (Hok & _ & _)).
  now apply sqlite3_bind_spec in Hok.
Qed.

Lemma SL_InsertEntries_in_txn stmt es d :
  in_txn d (snd (SL_InsertEntries stmt es d)).
Proof.
  revert d. induction es as [|e es IH]; intros d; cbn [SL_InsertEntries]; [apply in_txn_refl|].
  destruct (Z.eqb_spec (fst (SL_InsertEntry stmt e d)) SQLITE_OK).
  - eapply in_txn_trans; [apply SL_InsertEntry_in_txn|apply IH].
  - apply SL_InsertEntry_in_txn.
Qed.

Lemma SL_InsertEntries_outcome stmt es d :
  outcome_ok (fst (SL_InsertEntries stmt es d)).
Proof.
  revert d. induction es as [|e es IH]; intros d; cbn [SL_InsertEntries]; [now left|].
  destruct (Z.eqb_spec (fst (SL_InsertEntry stmt e d)) SQLITE_OK).
  - apply IH.
  - apply SL_InsertEntry_outcome.
Qed.

(** A loop that runs to its end has put the rows of all the entries, in
    slot order, into the open transaction. *)
Lemma SL_InsertEntries_ok es d pending :
  txn d = Some pending ->
  fst (SL_InsertEntries stmt_insert es d) = SQLITE_OK ->
  txn (snd (SL_InsertEntries stmt_insert es d))
  = Some (pending ++ map row_of es).
Proof.
  revert d pending. induction es as [|e es IH]; intros d pending Ht; cbn [SL_InsertEntries map].
  - intros _. now rewrite app_nil_r.
  - destruct (Z.eqb_spec (fst (SL_InsertEntry stmt_insert e d)) SQLITE_OK) as [E|E].
    + intros Hok. rewrite (IH _ (pending ++ [row_of e])); trivial.
      * now rewrite <- app_assoc.
      * now apply SL_InsertEntry_ok.
    + intros Hok. contradiction.
Qed.

Lemma SL_InsertEntries_stmt stmt es d :
  es <> [] -> fst (SL_InsertEntries stmt es d) = SQLITE_OK -> stmt <> stmt_null.
Proof.
  destruct es as [|e es]; [congruence|]. intros _. cbn [SL_InsertEntries].
  destruct (Z.eqb_spec (fst (SL_InsertEntry stmt e d)) SQLITE_OK) as [E|E].
  - intros _. now apply SL_InsertEntry_stmt in E.
  - intros Hok. contradiction.
Qed.

(** ** Transactions *)

Lemma is_error_SQLITE_ERROR : outcome_ok SQLITE_ERROR.
Proof. now right. Qed.

Lemma sqlite3_exec_begin_spec (d : db) :
  let b := sqlite3_exec BEGIN_TRANSACTION d in
  flushes (snd b) = S (flushes d)
  /\ rows (snd b) = rows d
  /\ outcome_ok (fst b)
  /\ (fst b = SQLITE_OK -> txn d = None /\ txn (snd b) = Some [])
  /\ (fst b <> SQLITE_OK -> txn (snd b) = txn d).
Proof.
  destruct (enter_spec (c_exec BEGIN_TRANSACTION) d) as (Hr & Ht & _ & Hj & _ & He).
  assert (Hf : flushes (snd (enter (c_exec BEGIN_TRANSACTION) d)) = S (flushes d)).
  { unfold flushes. rewrite Hj, length_filter_begin_snoc. simpl. lia. }
  unfold sqlite3_exec.
  destruct (enter (c_exec BEGIN_TRANSACTION) d) as [[f|] d']; cbn [fst snd] in *.
  - specialize (He _ eq_refl).
    split; [exact Hf|]. split; [exact Hr|]. split; [now right|].
    split; [|intros _; exact Ht].
    intros ->. discriminate He.
  - destruct (txn d') as [p|] eqn:E; cbn [fst snd].
    + split; [exact Hf|]. split; [exact Hr|]. split; [now right|].
      split; [discriminate|]. intros _. congruence.
    + split; [exact Hf|]. split; [exact Hr|]. split; [now left|].
      split; [|intros H; now contradiction H].
      intros _. split; [congruence|reflexivity].
Qed.

Lemma sqlite3_exec_end_spec (d : db) (pending : list row) :
  txn d = Some pending ->
  let c := sqlite3_exec END_TRANSACTION d in
  flushes (snd c) = flushes d
  /\ outcome_ok (fst c)
  /\ (fst c = SQLITE_OK ->
      rows (snd c) = rows d ++ pending /\ txn (snd c) = None)
  /\ (fst c <> SQLITE_OK -> rows (snd c) = rows d /\ txn (snd c) = txn d).
Proof.
  intros Hp.
  pose proof (enter_same_tables (c_exec END_TRANSACTION) d eq_refl) as (Hr & Ht & Hf).
  destruct (enter_spec (c_exec END_TRANSACTION) d) as (_ & _ & _ & _ & _ & He).
  unfold sqlite3_exec.
  destruct (enter (c_exec END_TRANSACTION) d) as [[f|] d']; cbn [fst snd] in *.
  - specialize (He _ eq_refl).
    split; [exact Hf|]. split; [now right|].
    split; [|intros _; now split].
    intros ->. discriminate He.
  - rewrite Ht, Hp. cbn [fst snd rows txn set_rows].
    split; [exact Hf|]. split; [now left|].
    split; [|intros H; now contradiction H].
    intros _. split; [now rewrite Hr|reflexivity].
Qed.

Lemma sqlite3_exec_rollback_spec (d : db) :
  let r := sqlite3_exec ROLLBACK d in
  flushes (snd r) = flushes d
  /\ rows (snd r) = rows d
  /\ txn (snd r) = None
  /\ journal (snd r) = journal d ++ [c_exec ROLLBACK]
  /\ faults (snd r) = faults d.
Proof.
  unfold sqlite3_exec, set_rows, record, flushes. cbn [fst snd rows txn journal faults].
  repeat split. rewrite length_filter_begin_snoc. cbn [is_begin]. lia.
Qed.

Lemma set_database_same (s : State) : set_database (database s) s = s.
Proof. now destruct s. Qed.

(** [SL_ProcessTransaction] touches nothing but the database; it starts
    exactly one flush; it commits the rows of the buffered entries, in
    slot order, or leaves the committed rows as they were. *)
Lemma SL_ProcessTransaction_spec (s : State) :
  let t := SL_ProcessTransaction s in
  snd t = set_database (database (snd t)) s
  /\ flushes (database (snd t)) = S (flushes (database s))
  /\ outcome_ok (fst t)
  /\ (fst t <> SQLITE_OK -> rows (database (snd t)) = rows (database s))
  /\ (fst t = SQLITE_OK -> gInsertStatement s = stmt_insert ->
      rows (database (snd t)) = rows (database s) ++ map row_of (buffered s)
      /\ txn (database (snd t)) = None).
Proof.
  unfold SL_ProcessTransaction.
  destruct (sqlite3_exec_begin_spec (database s)) as (Bf & Br & Bo & Bok & Bko).
  set (b := sqlite3_exec BEGIN_TRANSACTION (database s)) in *.
  destruct (Z.eqb_spec (fst b) SQLITE_OK) as [Eb|Eb];
    cbn [fst snd database set_database].
  2:{ split; [reflexivity|]. split; [exact Bf|]. split; [exact Bo|].
      split; [intros _; exact Br|]. intros K. contradiction. }
  destruct (Bok Eb) as [T0 T1].
  pose proof (SL_InsertEntries_in_txn (gInsertStatement s) (buffered s) (snd b))
    as [If It].
  destruct It as [Ir [q Iq]]; [eauto|].
  pose proof (SL_InsertEntries_outcome (gInsertStatement s) (buffered s) (snd b)) as Io.
  set (p := SL_InsertEntries (gInsertStatement s) (buffered s) (snd b)) in *.
  destruct (Z.eqb_spec (fst p) SQLITE_OK) as [Ep|Ep];
    cbn [fst snd database set_database].
  - destruct (sqlite3_exec_end_spec (snd p) q Iq) as (Ef & Eo & Eok & Eko).
    split; [reflexivity|]. split; [congruence|]. split; [exact Eo|].
    split.
    + intros K. destruct (Eko K) as [-> _]. congruence.
    + intros K Hs. destruct (Eok K) as [-> ->]. split; [|reflexivity].
      rewrite Ir, Br. f_equal.
      subst p. rewrite Hs in *.
      rewrite (SL_InsertEntries_ok _ _ [] T1 Ep) in Iq. now injection Iq as <-.
  - destruct (sqlite3_exec_rollback_spec (snd p)) as (Rf & Rr & Rt & _).
    split; [reflexivity|]. split; [congruence|]. split; [exact Io|].
    split; [intros _; congruence|]. intros K. contradiction.
Qed.

Lemma SL_ProcessTransaction_frame (s : State) :
  let t := snd (SL_ProcessTransaction s) in
  gSQLiteDatabase t = gSQLiteDatabase s
  /\ gInsertStatement t = gInsertStatement s
  /\ gLogLevel t = gLogLevel s
  /\ gLogEntries t = gLogEntries s
  /\ gLogEntryCount t = gLogEntryCount s
  /\ gLogTimestamp t = gLogTimestamp s
  /\ clock t = clock s.
Proof.
  destruct (SL_ProcessTransaction_spec s) as (Ts & _).
  cbv zeta in *. rewrite Ts. now repeat split.
Qed.

(** ** The buffer *)

Section Buffer.

Variable N : Z.
Variable now : nat -> list ascii.
Hypothesis HN : config_ok N.

Lemma buffer_ok_cleared (s : State) :
  buffer_ok N (set_entries (cleared_entries N) (set_count 0 s)).
Proof.
  unfold buffer_ok, cleared_entries. simpl.
  rewrite length_replicate. unfold config_ok in HN.
  repeat split; try lia. now rewrite Nat.sub_0_r.
Qed.

Lemma buffer_ok_slot (s : State) :
  buffer_ok N s -> gLogEntryCount s < N ->
  gLogEntries s !! Z.to_nat (gLogEntryCount s) = Some zero_entry.
Proof.
  intros (Hlen & Hc & Hz) Hlt.
  pose proof (lookup_drop (gLogEntries s) (Z.to_nat (gLogEntryCount s)) 0) as H.
  rewrite Nat.add_0_r, Hz in H. rewrite <- H.
  apply lookup_replicate_2. lia.
Qed.

(** [SL_AddLogEntry] in a buffer with a free slot: the entry goes to the
    end of the buffered ones and nothing else moves. *)
Lemma SL_AddLogEntry_spec (s : State) m lvl file func line tg sd :
  buffer_ok N s -> gLogEntryCount s < N ->
  let a := SL_AddLogEntry now s m lvl file func line tg sd in
  fst a = SL_RESULT_SUCCESS
  /\ database (snd a) = database s
  /\ gSQLiteDatabase (snd a) = gSQLiteDatabase s
  /\ gInsertStatement (snd a) = gInsertStatement s
  /\ gLogLevel (snd a) = gLogLevel s
  /\ clock (snd a) = S (clock s)
  /\ gLogEntryCount (snd a) = gLogEntryCount s + 1
  /\ buffered (snd a)
     = buffered s
       ++ [SL_FillEntry now zero_entry (clock s) m lvl file func line tg sd]
  /\ buffer_ok N (snd a).
Proof.
  intros Hok Hlt. pose proof (buffer_ok_slot s Hok Hlt) as Hslot.
  destruct Hok as (Hlen & Hc & Hz). unfold config_ok in HN.
  assert (Hu : uint32 (gLogEntryCount s + 1) = gLogEntryCount s + 1).
  { unfold uint32. apply Z.mod_small. lia. }
  unfold SL_AddLogEntry, buffered, buffer_ok. simpl.
  rewrite Hslot, Hu. simpl.
  replace (Z.to_nat (gLogEntryCount s + 1)) with (S (Z.to_nat (gLogEntryCount s)))
    by lia.
  repeat split; trivial; try lia.
  - erewrite take_S_r by (apply list_lookup_insert_eq; lia).
    now rewrite take_insert_ge by lia.
  - now rewrite length_insert.
  - rewrite drop_insert_lt by lia.
    replace (S (Z.to_nat (gLogEntryCount s)))
      with (Z.to_nat (gLogEntryCount s) + 1)%nat by lia.
    rewrite <- drop_drop, Hz, drop_replicate. f_equal. lia.
Qed.

End Buffer.

(** ** [SL_Log], case by case *)

Section Log.

Variable N : Z.
Variable now : nat -> list ascii.

Lemma valid_call_inv (c : LogCall) :
  valid_call c = true ->
  exists m, arg_message c = Some m /\ strlen m <> 0%nat
            /\ eSL_LogLevel_Diagnostic <= arg_level c <= eSL_LogLevel_None.
Proof.
  unfold valid_call. destruct (arg_message c) as [m|]; [|discriminate].
  intros H. apply andb_prop in H as [H H3]. apply andb_prop in H as [H1 H2].
  exists m. split; [reflexivity|]. split.
  - apply negb_true_iff, Nat.eqb_neq in H1. exact H1.
  - apply Z.leb_le in H2, H3. lia.
Qed.

(** With valid arguments in an open session, [SL_Log] is its level gate
    in front of the buffer. *)
Lemma SL_LogCall_valid (s : State) (c : LogCall) :
  valid_call c = true -> gSQLiteDatabase s = db_handle ->
  SL_LogCall N now s c
  = if gLogLevel s <=? arg_level c then
      if gLogEntryCount s <? N - 1 then
        SL_AddLogEntry now s (default [] (arg_message c)) (arg_level c)
          (arg_fileName c) (arg_functionName c) (arg_lineNumber c)
          (arg_tag c) (arg_supplementalData c)
      else
        let t := SL_ProcessTransaction s in
        if fst t =? SL_RESULT_SUCCESS then
          SL_AddLogEntry now (set_entries (cleared_entries N) (set_count 0 (snd t)))
            (default [] (arg_message c)) (arg_level c)
            (arg_fileName c) (arg_functionName c) (arg_lineNumber c)
            (arg_tag c) (arg_supplementalData c)
        else t
    else (SL_RESULT_SUCCESS, s).
Proof.
  intros Hv Hdb. destruct (valid_call_inv c Hv) as (m & Hm & Hlen & Hl1 & Hl2).
  unfold SL_LogCall, SL_Log. rewrite Hm, Hdb.
  destruct (Nat.eqb_spec (strlen m) 0) as [E|_]; [contradiction|].
  destruct (Z.ltb_spec (arg_level c) eSL_LogLevel_Diagnostic) as [E|_]; [lia|].
  destruct (Z.ltb_spec eSL_LogLevel_None (arg_level c)) as [E|_]; [lia|].
  reflexivity.
Qed.

(** Invalid arguments, or a session that is not open: an error code and
    no effect. *)
Lemma SL_LogCall_refused (s : State) (c : LogCall) :
  valid_call c = false \/ gSQLiteDatabase s = db_null ->
  fst (SL_LogCall N now s c) <> SL_RESULT_SUCCESS
  /\ snd (SL_LogCall N now s c) = s.
Proof.
  unfold SL_LogCall, SL_Log, valid_call.
  destruct (arg_message c) as [m|].
  - destruct (Nat.eqb_spec (strlen m) 0) as [E|E]; simpl.
    + intros _.
      destruct ((arg_level c <? eSL_LogLevel_Diagnostic)
                || (eSL_LogLevel_None <? arg_level c)); simpl; split;
        trivial; discriminate.
    + destruct (Z.leb_spec eSL_LogLevel_Diagnostic (arg_level c)) as [L1|L1];
      destruct (Z.leb_spec (arg_level c) eSL_LogLevel_None) as [L2|L2]; simpl;
      destruct (Z.ltb_spec (arg_level c) eSL_LogLevel_Diagnostic) as [K1|K1];
      destruct (Z.ltb_spec eSL_LogLevel_None (arg_level c)) as [K2|K2]; simpl;
      try lia; try (intros _; split; [discriminate|reflexivity]).
      intros [H|H]; [discriminate|]. rewrite H. simpl. split; [discriminate|reflexivity].
  - intros _.
    destruct ((arg_level c <? eSL_LogLevel_Diagnostic)
              || (eSL_LogLevel_None <? arg_level c)); simpl; split;
      trivial; discriminate.
Qed.

End Log.

Section Step.

Variable N : Z.
Variable now : nat -> list ascii.
Hypothesis HN : config_ok N.

Lemma buffered_cleared (s : State) :
  buffered (set_entries (cleared_entries N) (set_count 0 s)) = [].
Proof. reflexivity. Qed.

(** One call of [SL_Log] in an initialized session.  An accepted call
    that succeeds captures its entry; a call that is not accepted changes
    nothing, and succeeds when its arguments are valid; an accepted call
    fails only through the flush, which then moves nothing but the
    database and leaves its rows as they were. *)
Lemma SL_LogCall_step (s : State) (c : LogCall) :
  buffer_ok N s -> initialized s ->
  let p := SL_LogCall N now s c in
  buffer_ok N (snd p) /\ initialized (snd p)
  /\ gLogLevel (snd p) = gLogLevel s
  /\ ((accepted (gLogLevel s) c = true /\ fst p = SL_RESULT_SUCCESS
       /\ captured now s c (snd p) /\ clock (snd p) = S (clock s))
      \/ (accepted (gLogLevel s) c = false /\ snd p = s
          /\ (fst p = SL_RESULT_SUCCESS <-> valid_call c = true))
      \/ (accepted (gLogLevel s) c = true /\ flush_failed N s p
          /\ snd p = set_database (database (snd p)) s
          /\ rows (database (snd p)) = rows (database s))).
Proof.
  intros Hok [Hdb Hst]. unfold accepted. cbv zeta.
  destruct (valid_call c) eqn:Hv.
  2:{ destruct (SL_LogCall_refused N now s c (or_introl Hv)) as [Hr Hs].
      rewrite Hs. split; [exact Hok|]. split; [now split|].
      split; [reflexivity|]. right. left.
      split; [reflexivity|]. split; [reflexivity|].
      split; [intros K; contradiction|discriminate]. }
  rewrite (SL_LogCall_valid N now s c Hv Hdb).
  unfold shouldCapture. cbn [andb].
  destruct (Z.leb_spec (gLogLevel s) (arg_level c)) as [Hg|Hg].
  2:{ cbn [fst snd]. split; [exact Hok|]. split; [now split|].
      split; [reflexivity|]. right. left. now repeat split. }
  destruct (Z.ltb_spec (gLogEntryCount s) (N - 1)) as [Hc|Hc].
  - (* a free slot *)
    destruct (SL_AddLogEntry_spec N now HN s (default [] (arg_message c))
                (arg_level c) (arg_fileName c) (arg_functionName c)
                (arg_lineNumber c) (arg_tag c) (arg_supplementalData c) Hok)
      as (A0 & Ad & Ah & Ast & Al & Ak & An & Ab & Aok); [lia|].
    split; [exact Aok|]. split; [split; congruence|]. split; [exact Al|].
    left. split; [reflexivity|]. split; [exact A0|]. split; [|exact Ak].
    split.
    + rewrite Ab. apply last_snoc.
    + unfold recorded. rewrite Ad, Ab, map_app, app_assoc. reflexivity.
  - (* the flush *)
    destruct (SL_ProcessTransaction_spec s) as (Ts & Tf & To & Tko & Tok).
    set (t := SL_ProcessTransaction s) in *.
    destruct (Z.eqb_spec (fst t) SL_RESULT_SUCCESS) as [Et|Et].
    + destruct (Tok Et Hst) as [Tr Tt].
      destruct (SL_AddLogEntry_spec N now HN
                  (set_entries (cleared_entries N) (set_count 0 (snd t)))
                  (default [] (arg_message c))
                  (arg_level c) (arg_fileName c) (arg_functionName c)
                  (arg_lineNumber c) (arg_tag c) (arg_supplementalData c)
                  (buffer_ok_cleared N HN (snd t)))
        as (A0 & Ad & Ah & Ast & Al & Ak & An & Ab & Aok);
        [cbn [gLogEntryCount set_entries set_count]; unfold config_ok in HN; lia|].
      cbn [database gSQLiteDatabase gInsertStatement gLogLevel clock
           set_entries set_count] in Ad, Ah, Ast, Al, Ak, Ab.
      destruct (SL_ProcessTransaction_frame s) as (Fh & Fst & Fl & _ & _ & _ & Fk).
      fold t in Fh, Fst, Fl, Fk. rewrite Fk in Ab.
      split; [exact Aok|]. split; [split; congruence|]. split; [congruence|].
      left. split; [reflexivity|]. split; [exact A0|]. split; [|congruence].
      split.
      * rewrite Ab. apply last_snoc.
      * unfold recorded. rewrite Ad, Ab, Tr, buffered_cleared.
        reflexivity.
    + destruct (SL_ProcessTransaction_frame s) as (Fh & Fst & Fl & Fe & Fc & _ & Fk).
      fold t in Fh, Fst, Fl, Fe, Fc, Fk.
      split; [unfold buffer_ok; rewrite Fe, Fc; exact Hok|].
      split; [split; congruence|].
      split; [exact Fl|].
      right. right. split; [reflexivity|].
      split; [split; [lia|]; split; [reflexivity|exact Et]|].
      split; [exact Ts|now apply Tko].
Qed.

End Step.

(** ** Opening and closing the session *)

Lemma sqlite3_prepare_v2_spec (what : sqlite3_stmt) (d : db) :
  let p := sqlite3_prepare_v2 what d in
  same_tables d (snd p)
  /\ outcome_ok (fst (fst p))
  /\ (fst (fst p) = SQLITE_OK -> snd (fst p) = what)
  /\ (fst (fst p) <> SQLITE_OK -> snd (fst p) = stmt_null).
Proof.
  pose proof (enter_same_tables (c_prepare what) d eq_refl) as Hs.
  destruct (enter_spec (c_prepare what) d) as (_ & _ & _ & _ & _ & He).
  unfold sqlite3_prepare_v2.
  destruct (enter (c_prepare what) d) as [[f|] d']; cbn [fst snd] in *.
  - specialize (He _ eq_refl).
    split; [exact Hs|]. split; [now right|].
    split; [intros ->; discriminate He|reflexivity].
  - split; [now destruct what|]. split; [now left|].
    split; [reflexivity|intros H; now contradiction H].
Qed.

Lemma sqlite3_open_v2_spec (d : db) :
  let p := sqlite3_open_v2 d in
  same_tables d (snd p) /\ outcome_ok (fst (fst p)) /\ snd (fst p) = db_handle.
Proof.
  pose proof (enter_same_tables c_open d eq_refl) as Hs.
  destruct (enter_spec c_open d) as (_ & _ & _ & _ & _ & He).
  unfold sqlite3_open_v2.
  destruct (enter c_open d) as [[f|] d']; cbn [fst snd] in *.
  - split; [exact Hs|]. split; [right; now apply He|reflexivity].
  - split; [exact Hs|]. split; [now left|reflexivity].
Qed.

Lemma sqlite3_step_schema_spec (d : db) :
  same_tables d (snd (eat_done (sqlite3_step stmt_schema d)))
  /\ outcome_ok (fst (eat_done (sqlite3_step stmt_schema d))).
Proof.
  split; [|apply sqlite3_step_outcome].
  pose proof (enter_same_tables (c_step stmt_schema) d eq_refl) as Hs.
  unfold sqlite3_step, eat_done.
  now destruct (enter (c_step stmt_schema) d) as [[f|] d'].
Qed.

Lemma sqlite3_finalize_same_tables (stmt : sqlite3_stmt) (d : db) :
  same_tables d (sqlite3_finalize stmt d).
Proof. now apply record_same_tables. Qed.

Lemma schema_frame_trans (a b c : State) :
  schema_frame a b -> schema_frame b c -> schema_frame a c.
Proof.
  intros (?&?&?&?&?&?) (?&?&?&?&?&?).
  do 5 (split; [congruence|]). eapply same_tables_trans; eauto.
Qed.

Lemma schema_frame_refl (s : State) : schema_frame s s.
Proof. do 5 (split; [reflexivity|]). apply same_tables_refl. Qed.

Lemma schema_statement_frame (s : State) :
  let p :=
    match sqlite3_prepare_v2 stmt_schema (database s) with
    | (result, statement, d) =>
        if result =? SQLITE_OK then
          let p := eat_done (sqlite3_step statement d) in
          (fst p, set_database (sqlite3_finalize statement (snd p)) s)
        else (result, set_database d s)
    end in
  schema_frame s (snd p) /\ outcome_ok (fst p) /\ clock (snd p) = clock s
  /\ gLogTimestamp (snd p) = gLogTimestamp s.
Proof.
  destruct (sqlite3_prepare_v2_spec stmt_schema (database s)) as (Hs & Ho & Hok & _).
  destruct (sqlite3_prepare_v2 stmt_schema (database s)) as [[r st] d].
  cbn [fst snd] in *.
  destruct (Z.eqb_spec r SQLITE_OK) as [E|E]; cbn [fst snd].
  - rewrite (Hok E).
    destruct (sqlite3_step_schema_spec d) as [Hst Hso].
    split; [|split; [exact Hso|split; reflexivity]].
    do 5 (split; [reflexivity|]). cbn [database set_database].
    eapply same_tables_trans;
      [exact Hs|eapply same_tables_trans;
                [exact Hst|apply sqlite3_finalize_same_tables]].
  - split; [|split; [exact Ho|split; reflexivity]].
    do 5 (split; [reflexivity|]). exact Hs.
Qed.

Lemma SL_CreateView_frame (s : State) :
  schema_frame s (snd (SL_CreateView s)) /\ outcome_ok (fst (SL_CreateView s)).
Proof.
  destruct (schema_statement_frame s) as (H1 & H2 & _). now split.
Qed.

Lemma SL_CreateTable_frame (now : nat -> list ascii) (s : State) :
  schema_frame s (snd (SL_CreateTable now s))
  /\ outcome_ok (fst (SL_CreateTable now s)).
Proof.
  unfold SL_CreateTable.
  set (s1 := set_session_timestamp _ s).
  destruct (schema_statement_frame s1) as (H1 & H2 & _).
  split; [|exact H2].
  eapply schema_frame_trans; [|exact H1].
  subst s1. do 5 (split; [reflexivity|]). apply same_tables_refl.
Qed.

Lemma SL_CreateViews_frame (s : State) :
  schema_frame s (snd (SL_CreateViews s)) /\ outcome_ok (fst (SL_CreateViews s)).
Proof.
  unfold SL_CreateViews.
  pose proof (SL_CreateView_frame s) as [F1 O1].
  destruct (fst (SL_CreateView s) =? SL_RESULT_SUCCESS); [|now split].
  pose proof (SL_CreateView_frame (snd (SL_CreateView s))) as [F2 O2].
  pose proof (schema_frame_trans _ _ _ F1 F2) as G2.
  destruct (fst (SL_CreateView (snd (SL_CreateView s))) =? SL_RESULT_SUCCESS);
    [|now split].
  set (s2 := snd (SL_CreateView (snd (SL_CreateView s)))) in *.
  pose proof (SL_CreateView_frame s2) as [F3 O3].
  pose proof (schema_frame_trans _ _ _ G2 F3) as G3.
  destruct (fst (SL_CreateView s2) =? SL_RESULT_SUCCESS); [|now split].
  set (s3 := snd (SL_CreateView s2)) in *.
  pose proof (SL_CreateView_frame s3) as [F4 O4].
  pose proof (schema_frame_trans _ _ _ G3 F4) as G4.
  destruct (fst (SL_CreateView s3) =? SL_RESULT_SUCCESS); [|now split].
  set (s4 := snd (SL_CreateView s3)) in *.
  pose proof (SL_CreateView_frame s4) as [F5 O5].
  split; [eapply schema_frame_trans; eauto|exact O5].
Qed.

(** [SL_Initialize] never assigns the threshold or the entry count and
    never touches the rows; when it succeeds the session was closed
    before, is initialized after, and every slot is cleared. *)
Lemma SL_Initialize_frame (N : Z) (now : nat -> list ascii)
    (path : option (list ascii)) (s : State) :
  let p := SL_Initialize N now path s in
  gLogLevel (snd p) = gLogLevel s
  /\ gLogEntryCount (snd p) = gLogEntryCount s
  /\ same_tables (database s) (database (snd p))
  /\ (fst p = SL_RESULT_SUCCESS ->
      gSQLiteDatabase s = db_null
      /\ initialized (snd p)
      /\ gLogEntries (snd p) = cleared_entries N).
Proof.
  unfold SL_Initialize.
  set (r0 := match path with
             | None => EFAULT
             | Some p => if (strlen p =? 0)%nat then EINVAL else SL_RESULT_SUCCESS
             end).
  destruct (Z.eqb_spec r0 SL_RESULT_SUCCESS) as [E0|E0].
  2:{ destruct (Z.eqb_spec r0 SL_RESULT_SUCCESS) as [K|_]; [contradiction|].
      cbn [fst snd]. do 2 (split; [reflexivity|]).
      split; [apply same_tables_refl|]. intros K. contradiction. }
  destruct (gSQLiteDatabase s) eqn:Hdb.
  2:{ cbn [Z.eqb SL_RESULT_ALREADY_INITIALIZED SL_RESULT_RESERVED_START
           SL_RESULT_SUCCESS Z.sub Z.add Z.opp Z.pos_sub Pos.add fst snd].
      do 2 (split; [reflexivity|]).
      split; [apply same_tables_refl|]. discriminate. }
  destruct (Z.eqb_spec r0 SL_RESULT_SUCCESS) as [_|K]; [|contradiction].
  destruct (sqlite3_open_v2_spec (database s)) as (Os & Oo & Oh).
  destruct (sqlite3_open_v2 (database s)) as [[r h] d]. cbn [fst snd] in *.
  subst h.
  set (s1 := set_database d (set_handles db_handle (gInsertStatement s) s)).
  assert (F1 : gLogLevel s1 = gLogLevel s /\ gLogEntryCount s1 = gLogEntryCount s
               /\ same_tables (database s) (database s1)
               /\ gSQLiteDatabase s1 = db_handle)
    by (do 2 (split; [reflexivity|]); split; [exact Os|reflexivity]).
  destruct F1 as (L1 & C1 & T1 & D1).
  destruct (Z.eqb_spec r SQLITE_OK) as [Er|Er].
  2:{ cbn [fst snd]. do 3 (split; [assumption|]). intros K. contradiction. }
  destruct (SL_CreateTable_frame now s1) as [(Th & Tst & Tl & Te & Tc & Tt) To].
  destruct (SL_CreateTable now s1) as [rt st]. cbn [fst snd] in *.
  destruct (Z.eqb_spec rt SL_RESULT_SUCCESS) as [Et|Et].
  2:{ cbn [fst snd]. split; [congruence|]. split; [congruence|].
      split; [eapply same_tables_trans; eauto|]. intros K. contradiction. }
  destruct (SL_CreateViews_frame st) as [(Vh & Vst & Vl & Ve & Vc & Vt) Vo].
  destruct (SL_CreateViews st) as [rv sv]. cbn [fst snd] in *.
  assert (T2 : same_tables (database s) (database sv))
    by (eapply same_tables_trans; [|exact Vt]; eapply same_tables_trans; eauto).
  destruct (Z.eqb_spec rv SL_RESULT_SUCCESS) as [Ev|Ev].
  2:{ cbn [fst snd]. split; [congruence|]. split; [congruence|].
      split; [exact T2|]. intros K. contradiction. }
  cbn [database gSQLiteDatabase set_entries].
  destruct (sqlite3_prepare_v2_spec stmt_insert (database sv)) as (Ps & Po & Pok & _).
  destruct (sqlite3_prepare_v2 stmt_insert (database sv)) as [[ri sti] di].
  cbn [fst snd gLogLevel gLogEntryCount gLogEntries database gSQLiteDatabase
       gInsertStatement set_database set_handles set_entries] in *.
  split; [congruence|]. split; [congruence|].
  split; [eapply same_tables_trans; eauto|].
  intros K. split; [reflexivity|]. split; [|reflexivity].
  split; cbn [gSQLiteDatabase gInsertStatement set_database set_handles set_entries];
    [congruence|now apply Pok].
Qed.

(** [SL_Terminate] in an initialized session: the optional flush, then
    the statement is finalized and the connection closed, whatever the
    flush returned. *)
Lemma SL_Terminate_spec (N : Z) (s : State) :
  initialized s ->
  let p := SL_Terminate N s in
  let t := SL_ProcessTransaction s in
  gSQLiteDatabase (snd p) = db_null
  /\ gInsertStatement (snd p) = stmt_null
  /\ gLogLevel (snd p) = gLogLevel s
  /\ clock (snd p) = clock s
  /\ (0 < gLogEntryCount s ->
      fst p = fst t
      /\ database (snd p)
         = sqlite3_close_v2 (sqlite3_finalize stmt_insert (database (snd t)))
      /\ (fst t = SL_RESULT_SUCCESS -> buffer_empty N (snd p))
      /\ (fst t <> SL_RESULT_SUCCESS ->
          gLogEntries (snd p) = gLogEntries s
          /\ gLogEntryCount (snd p) = gLogEntryCount s))
  /\ (gLogEntryCount s <= 0 ->
      fst p = SL_RESULT_SUCCESS
      /\ database (snd p)
         = sqlite3_close_v2 (sqlite3_finalize stmt_insert (database s))
      /\ gLogEntries (snd p) = gLogEntries s
      /\ gLogEntryCount (snd p) = gLogEntryCount s).
Proof.
  intros [Hdb Hst]. cbv zeta. unfold SL_Terminate. rewrite Hdb.
  destruct (SL_ProcessTransaction_frame s) as (Fh & Fst & Fl & Fe & Fc & _ & Fk).
  cbv zeta in *.
  set (t := SL_ProcessTransaction s) in *.
  destruct (Z.ltb_spec 0 (gLogEntryCount s)) as [Hc|Hc].
  - destruct (Z.eqb_spec (fst t) SL_RESULT_SUCCESS) as [Et|Et];
      cbn [fst snd gInsertStatement gSQLiteDatabase gLogLevel clock database
           gLogEntries gLogEntryCount set_entries set_count];
      rewrite Fst, Hst;
      cbn [fst snd gInsertStatement gSQLiteDatabase gLogLevel clock database
           gLogEntries gLogEntryCount set_entries set_count set_handles
           set_database].
    + do 2 (split; [reflexivity|]). split; [exact Fl|]. split; [exact Fk|].
      split; [|intros K; lia].
      intros _. do 2 (split; [reflexivity|]).
      split; [intros _; now split|intros K; contradiction].
    + do 2 (split; [reflexivity|]). split; [exact Fl|]. split; [exact Fk|].
      split; [|intros K; lia].
      intros _. do 2 (split; [reflexivity|]).
      split; [intros K; contradiction|intros _; now split].
  - cbn [fst snd]. rewrite Hst.
    cbn [fst snd gInsertStatement gSQLiteDatabase gLogLevel clock database
         gLogEntries gLogEntryCount set_handles set_database].
    do 4 (split; [reflexivity|]).
    split; [intros K; lia|]. intros _. now repeat split.
Qed.

(** ** The two paths of an accepted call, and runs of calls *)

Section Runs.

Variable N : Z.
Variable now : nat -> list ascii.
Hypothesis HN : config_ok N.

Lemma accepted_inv (threshold : Z) (c : LogCall) :
  accepted threshold c = true ->
  valid_call c = true /\ threshold <= arg_level c.
Proof.
  unfold accepted, shouldCapture. intros H.
  apply andb_prop in H as [H1 H2]. apply Z.leb_le in H2. now split.
Qed.

(** An accepted call that finds a free slot stores its entry and makes
    no call to the database. *)
Lemma SL_LogCall_direct (s : State) (c : LogCall) :
  buffer_ok N s -> initialized s -> accepted (gLogLevel s) c = true ->
  gLogEntryCount s < N - 1 ->
  let p := SL_LogCall N now s c in
  fst p = SL_RESULT_SUCCESS
  /\ database (snd p) = database s
  /\ gLogEntryCount (snd p) = gLogEntryCount s + 1
  /\ buffered (snd p) = buffered s ++ [entry_of now (clock s) c]
  /\ buffer_ok N (snd p) /\ initialized (snd p)
  /\ gLogLevel (snd p) = gLogLevel s.
Proof.
  intros Hok [Hdb Hst] Ha Hc. destruct (accepted_inv _ _ Ha) as [Hv Hg].
  cbv zeta. rewrite (SL_LogCall_valid N now s c Hv Hdb).
  destruct (Z.leb_spec (gLogLevel s) (arg_level c)) as [_|K]; [|lia].
  destruct (Z.ltb_spec (gLogEntryCount s) (N - 1)) as [_|K]; [|lia].
  destruct (SL_AddLogEntry_spec N now HN s (default [] (arg_message c))
              (arg_level c) (arg_fileName c) (arg_functionName c)
              (arg_lineNumber c) (arg_tag c) (arg_supplementalData c) Hok)
    as (A0 & Ad & Ah & Ast & Al & Ak & An & Ab & Aok); [lia|].
  split; [exact A0|]. split; [exact Ad|]. split; [exact An|].
  split; [exact Ab|]. split; [exact Aok|]. split; [split; congruence|exact Al].
Qed.

(** An accepted call that finds the buffer at its threshold runs
    [SL_ProcessTransaction] once, on the entries buffered before the
    call, and stores its entry in the cleared buffer if that succeeded. *)
Lemma SL_LogCall_flush (s : State) (c : LogCall) :
  initialized s -> accepted (gLogLevel s) c = true ->
  ~ gLogEntryCount s < N - 1 ->
  let p := SL_LogCall N now s c in
  let t := SL_ProcessTransaction s in
  fst p = fst t
  /\ database (snd p) = database (snd t)
  /\ (fst t = SL_RESULT_SUCCESS ->
      gLogEntryCount (snd p) = 1
      /\ buffered (snd p) = [entry_of now (clock s) c])
  /\ (fst t <> SL_RESULT_SUCCESS -> p = t).
Proof.
  intros [Hdb Hst] Ha Hc. destruct (accepted_inv _ _ Ha) as [Hv Hg].
  cbv zeta. rewrite (SL_LogCall_valid N now s c Hv Hdb).
  destruct (Z.leb_spec (gLogLevel s) (arg_level c)) as [_|K]; [|lia].
  destruct (Z.ltb_spec (gLogEntryCount s) (N - 1)) as [K|_]; [contradiction|].
  cbv zeta.
  destruct (SL_ProcessTransaction_frame s) as (_ & _ & _ & _ & _ & _ & Fk).
  cbv zeta in Fk.
  set (t := SL_ProcessTransaction s) in *.
  destruct (Z.eqb_spec (fst t) SL_RESULT_SUCCESS) as [Et|Et].
  - destruct (SL_AddLogEntry_spec N now HN
                (set_entries (cleared_entries N) (set_count 0 (snd t)))
                (default [] (arg_message c))
                (arg_level c) (arg_fileName c) (arg_functionName c)
                (arg_lineNumber c) (arg_tag c) (arg_supplementalData c)
                (buffer_ok_cleared N HN (snd t)))
      as (A0 & Ad & _ & _ & _ & _ & An & Ab & _);
      [cbn [gLogEntryCount set_entries set_count]; unfold config_ok in HN; lia|].
    cbn [database clock gLogEntryCount set_entries set_count] in Ad, An, Ab.
    rewrite Fk in Ab.
    split; [congruence|]. split; [exact Ad|].
    split; [intros _; split; [exact An|exact Ab]|intros K; contradiction].
  - split; [reflexivity|]. split; [reflexivity|].
    split; [intros K; contradiction|reflexivity].
Qed.

(** A run of accepted calls that fits below the threshold of the buffer:
    every call succeeds, every entry is stored, the count grows by the
    number of calls and the database is not called. *)
Lemma SL_LogAll_direct (cs : list LogCall) (s : State) :
  buffer_ok N s -> initialized s ->
  Forall (fun c => accepted (gLogLevel s) c = true) cs ->
  gLogEntryCount s + Z.of_nat (length cs) <= N - 1 ->
  let s1 := SL_LogAll N now cs s in
  database s1 = database s
  /\ gLogEntryCount s1 = gLogEntryCount s + Z.of_nat (length cs)
  /\ buffered s1 = buffered s ++ appended N now cs s
  /\ length (appended N now cs s) = length cs
  /\ Forall (fun r => r = SL_RESULT_SUCCESS) (SL_LogResults N now cs s)
  /\ buffer_ok N s1 /\ initialized s1
  /\ gLogLevel s1 = gLogLevel s.
Proof.
  revert s. induction cs as [|c cs IH]; intros s Hok Hi Hall Hlen; cbv zeta.
  - cbn [SL_LogAll SL_LogResults appended length]. rewrite app_nil_r.
    repeat split; trivial; try apply Hok; try apply Hi. lia.
  - apply Forall_cons in Hall as [Hc Hall]. cbn [length] in Hlen.
    destruct (SL_LogCall_direct s c Hok Hi Hc) as (R & D & Cn & B & Ok' & I' & L);
      [lia|].
    cbv zeta in *.
    cbn [SL_LogAll SL_LogResults appended length].
    rewrite Hc, R. cbn [andb Z.eqb SL_RESULT_SUCCESS].
    set (s' := snd (SL_LogCall N now s c)) in *.
    rewrite <- L in Hall.
    destruct (IH s' Ok' I' Hall) as (D1 & C1 & B1 & L1 & R1 & Ok1 & I1 & Lv1);
      [lia|].
    cbv zeta in *.
    split; [congruence|]. split; [lia|].
    split; [rewrite B1, B, <- app_assoc; reflexivity|].
    split; [cbn [app length]; now rewrite L1|].
    split; [constructor; trivial|].
    split; [exact Ok1|]. split; [exact I1|congruence].
Qed.

End Runs.

(** * The claims *)

(** ** C5: truncation of the string fields *)

(** C5.  [SL_AddLogEntry] does not truncate an over-long string to
    [bound - 1] characters and a terminator.  Whatever the slot held, a
    message, file name, function name, tag or supplemental data with
    [bound] characters or more is stored as its first [bound] characters:
    they fill the array and leave no terminator in it.  No copy writes
    past the end of its array: the entry keeps its shape. *)
Theorem SL_FillEntry_overlong (now : nat -> list ascii) (slot : tSL_LogEntry)
    (k : nat) (m : list ascii) (lvl : Z) (file func : option (list ascii))
    (line : Z) (tg sd : option (list ascii)) :
  entry_shape slot ->
  let e := SL_FillEntry now slot k m lvl file func line tg sd in
  ((SL_MESSAGE_STRING_LENGTH <= strlen m)%nat ->
     message e = take SL_MESSAGE_STRING_LENGTH m
     /\ terminated (message e) = false)
  /\ (forall f, file = Some f -> (SL_FILE_NAME_STRING_LENGTH <= strlen f)%nat ->
        fileName e = take SL_FILE_NAME_STRING_LENGTH f
        /\ terminated (fileName e) = false)
  /\ (forall f, func = Some f -> (SL_FUNCTION_NAME_STRING_LENGTH <= strlen f)%nat ->
        functionName e = take SL_FUNCTION_NAME_STRING_LENGTH f
        /\ terminated (functionName e) = false)
  /\ (forall t, tg = Some t -> (SL_TAG_STRING_LENGTH <= strlen t)%nat ->
        tag e = take SL_TAG_STRING_LENGTH t
        /\ terminated (tag e) = false)
  /\ (forall d, sd = Some d -> (SL_SUPPLEMENTAL_DATA_STRING_LENGTH <= strlen d)%nat ->
        supplementalData e = take SL_SUPPLEMENTAL_DATA_STRING_LENGTH d
        /\ terminated (supplementalData e) = false)
  /\ entry_shape e.
Proof.
  intros (Hm & Hl & Hf & Hu & Ht & Hd). cbv zeta.
  unfold SL_FillEntry; cbn [message fileName functionName tag supplementalData level].
  set (spill := drop SL_TIMESTAMP_STRING_LENGTH
                  (SL_GetTimestamp now (timestamp slot) k)).
  assert (Hm' : length (overwritten spill (message slot))
                = SL_MESSAGE_STRING_LENGTH)
    by (now rewrite length_overwritten).
  split; [intros H; now apply SL_CopyField_overlong|].
  split; [intros f -> H; now apply SL_CopyField_overlong|].
  split; [intros f -> H; now apply SL_CopyField_overlong|].
  split; [intros f -> H; now apply SL_CopyField_overlong|].
  split; [intros f -> H; now apply SL_CopyField_overlong|].
  unfold entry_shape, SL_CopyOptional;
    cbn [message fileName functionName tag supplementalData level].
  repeat split; try (now apply length_SL_CopyField);
    match goal with
    | |- context [match ?o with Some _ => _ | None => _ end] =>
        destruct o; [now apply length_SL_CopyField|assumption]
    end.
Qed.

(** The failing input of C5: a message of 1024 letters in a cleared slot. *)
Lemma SL_FillEntry_overlong_witness :
  entry_shape zero_entry
  /\ (SL_MESSAGE_STRING_LENGTH <= strlen (Scenario.letters 1024))%nat
  /\ message (SL_FillEntry Scenario.wall_clock zero_entry 0
                (Scenario.letters 1024) eSL_LogLevel_Info None None 0 None None)
     = take SL_MESSAGE_STRING_LENGTH (Scenario.letters 1024)
  /\ terminated
       (message (SL_FillEntry Scenario.wall_clock zero_entry 0
                   (Scenario.letters 1024) eSL_LogLevel_Info None None 0 None None))
     = false.
Proof.
  assert (Hs : entry_shape zero_entry) by (vm_compute; repeat split).
  assert (Hl : (SL_MESSAGE_STRING_LENGTH <= strlen (Scenario.letters 1024))%nat)
    by (vm_compute; apply Nat.le_refl).
  split; [exact Hs|]. split; [exact Hl|].
  exact (proj1 (SL_FillEntry_overlong Scenario.wall_clock zero_entry 0
                  (Scenario.letters 1024) eSL_LogLevel_Info None None 0 None None Hs)
               Hl).
Defined.

(** ** C7: the description of a result code *)

(** C7.  [SL_Result_String] does not return a string for every code of
    the reserved range: [kSL_ResultStrings] has four entries, and for the
    codes from -31 to -4 the function reads the table at an index between
    4 and 31, past its end. *)
Theorem SL_Result_String_reserved_overrun (strerror : Z -> string) (resultCode : Z) :
  SL_RESULT_RESERVED_END <= resultCode <= -4 ->
  SL_Result_String strerror resultCode = None.
Proof.
  intros [Hlo Hhi]. unfold SL_Result_String, SL_RESULT_RESERVED_END in *.
  destruct (Z.ltb_spec SL_RESULT_SUCCESS resultCode) as [H|_];
    [unfold SL_RESULT_SUCCESS in H; lia|].
  destruct (Z.leb_spec resultCode SL_RESULT_RESERVED_START) as [_|H];
    [|unfold SL_RESULT_RESERVED_START in H; lia].
  destruct (Z.leb_spec (-31) resultCode) as [_|H]; [|lia].
  cbn [andb]. apply lookup_ge_None.
  unfold uint32. rewrite Z.mod_small by lia.
  unfold kSL_ResultStrings. cbn [length]. lia.
Qed.

(** The failing input of C7: the first reserved code without a string. *)
Lemma SL_Result_String_reserved_overrun_witness :
  SL_RESULT_RESERVED_END <= -4 <= -4
  /\ SL_Result_String (fun _ => ""%string) (-4) = None.
Proof.
  assert (H : SL_RESULT_RESERVED_END <= -4 <= -4)
    by (unfold SL_RESULT_RESERVED_END; lia).
  split; [exact H|].
  exact (SL_Result_String_reserved_overrun (fun _ => ""%string) (-4) H).
Defined.

(** ** C9: the threshold at the start of a session *)

(** C9, as the code has it.  [SL_Initialize] leaves the threshold as it
    was, so [SL_GetLogLevel] returns after it the threshold that was in
    force before it; that threshold is Info in a process that has not set
    another one before its first [SL_Initialize]. *)
Theorem SL_Initialize_keeps_threshold (N : Z) (now : nat -> list ascii)
    (path : option (list ascii)) (v : Z) :
  (forall s,
     SL_GetLogLevel (Some v) (snd (SL_Initialize N now path s))
     = (SL_RESULT_SUCCESS, Some (gLogLevel s)))
  /\ (forall d,
        SL_GetLogLevel (Some v)
          (snd (SL_Initialize N now path (process_start N d)))
        = (SL_RESULT_SUCCESS, Some eSL_LogLevel_Info)).
Proof.
  split; intros x; unfold SL_GetLogLevel;
    now rewrite (proj1 (SL_Initialize_frame N now path _)).
Qed.

(** C9 fails as stated: the threshold set to Warning before
    [SL_Initialize] is still in force after a successful [SL_Initialize]. *)
Lemma threshold_survives_SL_Initialize :
  fst (SL_Initialize Scenario.cache Scenario.wall_clock Scenario.path
         (snd (SL_SetLogLevel eSL_LogLevel_Warning
                 (process_start Scenario.cache (fresh [])))))
  = SL_RESULT_SUCCESS
  /\ SL_GetLogLevel (Some 0) Scenario.raised_then_opened
     = (SL_RESULT_SUCCESS, Some eSL_LogLevel_Warning)
  /\ eSL_LogLevel_Warning <> eSL_LogLevel_Info.
Proof.
  split; [vm_compute; reflexivity|].
  split; [vm_compute; reflexivity|discriminate].
Qed.

(** ** C1: a flush that fails inside the batch *)

(** C1.  An accepted [SL_Log] call finds the buffer at its threshold and
    starts the flush; the [BEGIN] succeeds and a bind, step or reset of
    some row fails.  Then [SL_Log] returns the error code of that call,
    which is not [SL_RESULT_SUCCESS]; the transaction is rolled back (the
    last call of the journal is the [ROLLBACK], after which no
    transaction is open); the committed rows are the rows from before the
    call; and the entries and their count are as before, so that the new
    entry is not appended. *)
Theorem SL_Log_flush_failure_keeps_buffer (N : Z) (now : nat -> list ascii)
    (s : State) (c : LogCall) :
  initialized s ->
  valid_call c = true ->
  gLogLevel s <= arg_level c ->
  ~ gLogEntryCount s < N - 1 ->
  fst (sqlite3_exec BEGIN_TRANSACTION (database s)) = SQLITE_OK ->
  fst (SL_InsertEntries (gInsertStatement s) (buffered s)
         (snd (sqlite3_exec BEGIN_TRANSACTION (database s)))) <> SQLITE_OK ->
  let p := SL_LogCall N now s c in
  fst p = fst (SL_InsertEntries (gInsertStatement s) (buffered s)
                 (snd (sqlite3_exec BEGIN_TRANSACTION (database s))))
  /\ fst p <> SL_RESULT_SUCCESS
  /\ is_error (fst p) = true
  /\ last (journal (database (snd p))) = Some (c_exec ROLLBACK)
  /\ txn (database (snd p)) = None
  /\ rows (database (snd p)) = rows (database s)
  /\ gLogEntries (snd p) = gLogEntries s
  /\ gLogEntryCount (snd p) = gLogEntryCount s
  /\ buffered (snd p) = buffered s.
Proof.
  intros [Hdb Hst] Hv Hg Hc Hb Hi. cbv zeta.
  rewrite (SL_LogCall_valid N now s c Hv Hdb).
  destruct (Z.leb_spec (gLogLevel s) (arg_level c)) as [_|K]; [|lia].
  destruct (Z.ltb_spec (gLogEntryCount s) (N - 1)) as [K|_]; [contradiction|].
  cbv zeta. unfold SL_ProcessTransaction.
  apply Z.eqb_eq in Hb. rewrite Hb.
  set (i := SL_InsertEntries (gInsertStatement s) (buffered s)
              (snd (sqlite3_exec BEGIN_TRANSACTION (database s)))) in *.
  pose proof (SL_InsertEntries_outcome (gInsertStatement s) (buffered s)
                (snd (sqlite3_exec BEGIN_TRANSACTION (database s)))) as Io.
  fold i in Io.
  destruct (SL_InsertEntries_in_txn (gInsertStatement s) (buffered s)
              (snd (sqlite3_exec BEGIN_TRANSACTION (database s)))) as [_ It].
  fold i in It.
  destruct (sqlite3_exec_begin_spec (database s)) as (_ & Br & _ & Bok & _).
  cbv zeta in *. apply Z.eqb_eq in Hb. destruct (Bok Hb) as [_ Bt].
  destruct It as [Ir _]; [eauto|].
  destruct (sqlite3_exec_rollback_spec (snd i)) as (_ & Rr & Rt & Rj & _).
  cbv zeta in *.
  destruct (Z.eqb_spec (fst i) SQLITE_OK) as [K|_]; [contradiction|].
  cbn [fst snd].
  destruct (Z.eqb_spec (fst i) SL_RESULT_SUCCESS) as [K|_]; [contradiction|].
  cbn [fst snd database gLogEntries gLogEntryCount set_database].
  split; [reflexivity|]. split; [exact Hi|].
  split; [destruct Io as [K|K]; [contradiction|exact K]|].
  split; [rewrite Rj; apply last_snoc|].
  split; [exact Rt|]. split; [congruence|].
  now repeat split.
Qed.

(** A session for C1: two buffered entries in a cache of three slots, and
    a database that fails the step of the second row of the flush with
    [SQLITE_CONSTRAINT]. *)
Lemma SL_Log_flush_failure_keeps_buffer_witness :
  initialized (Scenario.filled Scenario.step_fails)
  /\ valid_call (Scenario.call "third" eSL_LogLevel_Info) = true
  /\ gLogLevel (Scenario.filled Scenario.step_fails)
     <= arg_level (Scenario.call "third" eSL_LogLevel_Info)
  /\ ~ gLogEntryCount (Scenario.filled Scenario.step_fails) < Scenario.cache - 1
  /\ fst (sqlite3_exec BEGIN_TRANSACTION
            (database (Scenario.filled Scenario.step_fails))) = SQLITE_OK
  /\ fst (SL_InsertEntries
            (gInsertStatement (Scenario.filled Scenario.step_fails))
            (buffered (Scenario.filled Scenario.step_fails))
            (snd (sqlite3_exec BEGIN_TRANSACTION
                    (database (Scenario.filled Scenario.step_fails)))))
     <> SQLITE_OK
  /\ fst (SL_LogCall Scenario.cache Scenario.wall_clock
            (Scenario.filled Scenario.step_fails)
            (Scenario.call "third" eSL_LogLevel_Info)) = 19
  /\ gLogEntryCount
       (snd (SL_LogCall Scenario.cache Scenario.wall_clock
               (Scenario.filled Scenario.step_fails)
               (Scenario.call "third" eSL_LogLevel_Info))) = 2
  /\ rows (database
             (snd (SL_LogCall Scenario.cache Scenario.wall_clock
                     (Scenario.filled Scenario.step_fails)
                     (Scenario.call "third" eSL_LogLevel_Info)))) = [].
Proof.
  assert (H1 : initialized (Scenario.filled Scenario.step_fails))
    by (split; vm_compute; reflexivity).
  assert (H2 : valid_call (Scenario.call "third" eSL_LogLevel_Info) = true)
    by (vm_compute; reflexivity).
  assert (H3 : gLogLevel (Scenario.filled Scenario.step_fails)
               <= arg_level (Scenario.call "third" eSL_LogLevel_Info))
    by (vm_compute; discriminate).
  assert (H4 : ~ gLogEntryCount (Scenario.filled Scenario.step_fails)
                 < Scenario.cache - 1)
    by (vm_compute; discriminate).
  assert (H5 : fst (sqlite3_exec BEGIN_TRANSACTION
                      (database (Scenario.filled Scenario.step_fails)))
               = SQLITE_OK)
    by (vm_compute; reflexivity).
  assert (H6 : fst (SL_InsertEntries
                      (gInsertStatement (Scenario.filled Scenario.step_fails))
                      (buffered (Scenario.filled Scenario.step_fails))
                      (snd (sqlite3_exec BEGIN_TRANSACTION
                              (database (Scenario.filled Scenario.step_fails)))))
               <> SQLITE_OK)
    by (vm_compute; discriminate).
  destruct (SL_Log_flush_failure_keeps_buffer Scenario.cache Scenario.wall_clock
              (Scenario.filled Scenario.step_fails)
              (Scenario.call "third" eSL_LogLevel_Info) H1 H2 H3 H4 H5 H6)
    as (E1 & _ & _ & _ & _ & E6 & _ & E8 & _).
  do 6 (split; [assumption|]).
  split; [rewrite E1; vm_compute; reflexivity|].
  split; [rewrite E8; vm_compute; reflexivity|].
  rewrite E6. vm_compute. reflexivity.
Defined.

(** ** C10: teardown *)

(** C10.  [SL_Terminate] in an initialized session with buffered entries
    runs the flush first: its result is the result of
    [SL_ProcessTransaction], and the journal of the database is the
    journal of that flush followed by the finalize of the insert
    statement and the close.  Whatever the flush returned, also a
    failure, the statement pointer and the database pointer are NULL
    afterwards, and no transaction is left open. *)
Theorem SL_Terminate_flushes_then_releases (N : Z) (s : State) :
  initialized s ->
  0 < gLogEntryCount s ->
  let p := SL_Terminate N s in
  let t := SL_ProcessTransaction s in
  fst p = fst t
  /\ flushes (database (snd t)) = S (flushes (database s))
  /\ journal (database (snd p))
     = journal (database (snd t)) ++ [c_finalize stmt_insert; c_close]
  /\ gInsertStatement (snd p) = stmt_null
  /\ gSQLiteDatabase (snd p) = db_null
  /\ txn (database (snd p)) = None
  /\ (fst t <> SL_RESULT_SUCCESS ->
      fst p <> SL_RESULT_SUCCESS
      /\ rows (database (snd p)) = rows (database s)).
Proof.
  intros Hi Hc. cbv zeta.
  destruct (SL_Terminate_spec N s Hi) as (Hh & Hst & _ & _ & Hpos & _).
  cbv zeta in *. destruct (Hpos Hc) as (Hr & Hd & _ & _).
  destruct (SL_ProcessTransaction_spec s) as (_ & Tf & _ & Tko & _).
  cbv zeta in *.
  split; [exact Hr|]. split; [exact Tf|].
  split; [rewrite Hd; cbn; now rewrite <- app_assoc|].
  split; [exact Hst|]. split; [exact Hh|].
  split; [rewrite Hd; reflexivity|].
  intros K. split; [congruence|]. rewrite Hd. cbn. now apply Tko.
Qed.

(** A teardown for C10: one buffered entry and a database that refuses the
    [BEGIN] of the flush with [SQLITE_BUSY]. *)
Lemma SL_Terminate_flushes_then_releases_witness :
  initialized (snd (Scenario.log (Scenario.opened Scenario.begin_fails)
                      (Scenario.call "lost" eSL_LogLevel_Error)))
  /\ 0 < gLogEntryCount
           (snd (Scenario.log (Scenario.opened Scenario.begin_fails)
                   (Scenario.call "lost" eSL_LogLevel_Error)))
  /\ fst (SL_Terminate Scenario.cache
            (snd (Scenario.log (Scenario.opened Scenario.begin_fails)
                    (Scenario.call "lost" eSL_LogLevel_Error)))) = 5
  /\ gSQLiteDatabase Scenario.torn_down = db_null
  /\ gInsertStatement Scenario.torn_down = stmt_null.
Proof.
  assert (H1 : initialized
                 (snd (Scenario.log (Scenario.opened Scenario.begin_fails)
                         (Scenario.call "lost" eSL_LogLevel_Error))))
    by (split; vm_compute; reflexivity).
  assert (H2 : 0 < gLogEntryCount
                     (snd (Scenario.log (Scenario.opened Scenario.begin_fails)
                             (Scenario.call "lost" eSL_LogLevel_Error))))
    by (vm_compute; reflexivity).
  destruct (SL_Terminate_flushes_then_releases Scenario.cache _ H1 H2)
    as (E1 & _ & _ & E4 & E5 & _).
  do 2 (split; [assumption|]).
  split; [rewrite E1; vm_compute; reflexivity|].
  split; [exact E5|exact E4].
Defined.

(** ** C8: the buffer after [SL_Initialize] and after a flush *)

(** After a flush that succeeded, in [SL_Log] or in [SL_Terminate], the
    buffer is cleared; after a successful [SL_Initialize] every slot is
    cleared, but the count is the count from before the call. *)
Lemma SL_Initialize_clears_slots_only (N : Z) (now : nat -> list ascii)
    (path : option (list ascii)) (s : State) :
  fst (SL_Initialize N now path s) = SL_RESULT_SUCCESS ->
  gLogEntries (snd (SL_Initialize N now path s)) = cleared_entries N
  /\ gLogEntryCount (snd (SL_Initialize N now path s)) = gLogEntryCount s.
Proof.
  intros H. destruct (SL_Initialize_frame N now path s) as (_ & Hc & _ & Hok).
  cbv zeta in *. destruct (Hok H) as (_ & _ & He). now split.
Qed.

(** C8.  The buffer is not empty after every successful [SL_Initialize].
    A session logs one entry; the flush of its [SL_Terminate] fails, which
    leaves the count at 1; the next [SL_Initialize] succeeds and clears
    every slot, and the count is still 1. *)
Theorem SL_Initialize_after_failed_teardown :
  fst (SL_Terminate Scenario.cache
         (snd (Scenario.log (Scenario.opened Scenario.begin_fails)
                 (Scenario.call "lost" eSL_LogLevel_Error)))) = 5
  /\ fst (SL_Initialize Scenario.cache Scenario.wall_clock Scenario.path
            Scenario.torn_down) = SL_RESULT_SUCCESS
  /\ gLogEntries
       (snd (SL_Initialize Scenario.cache Scenario.wall_clock Scenario.path
               Scenario.torn_down)) = cleared_entries Scenario.cache
  /\ gLogEntryCount
       (snd (SL_Initialize Scenario.cache Scenario.wall_clock Scenario.path
               Scenario.torn_down)) = 1.
Proof.
  assert (H : fst (SL_Initialize Scenario.cache Scenario.wall_clock Scenario.path
                     Scenario.torn_down) = SL_RESULT_SUCCESS)
    by (vm_compute; reflexivity).
  destruct (SL_Initialize_clears_slots_only _ _ _ _ H) as [He Hc].
  split; [vm_compute; reflexivity|]. split; [exact H|]. split; [exact He|].
  rewrite Hc. vm_compute. reflexivity.
Qed.

(** ** C3 and C4: the level gate *)

Lemma recorded_set_database (s : State) (d : db) :
  rows d = rows (database s) -> recorded (set_database d s) = recorded s.
Proof. intros H. unfold recorded. cbn [database set_database]. now rewrite H. Qed.

Lemma not_captured (now : nat -> list ascii) (s s' : State) (c : LogCall) :
  recorded s' = recorded s -> ~ captured now s c s'.
Proof.
  intros H [_ K]. rewrite H in K.
  apply (f_equal (@length row)) in K. rewrite length_app in K.
  cbn [length] in K. lia.
Qed.

(** The six levels, in their order. *)
Lemma level_order :
  eSL_LogLevel_Diagnostic = 0 /\ eSL_LogLevel_Detail = 1
  /\ eSL_LogLevel_Info = 2 /\ eSL_LogLevel_Warning = 3
  /\ eSL_LogLevel_Error = 4 /\ eSL_LogLevel_None = 5.
Proof. now repeat split. Qed.

(** C4, as the code has it.  In an initialized session a call with valid
    arguments captures its entry if and only if its level is at or above
    the threshold and the call returns [SL_RESULT_SUCCESS].  Below the
    threshold the call returns [SL_RESULT_SUCCESS] and changes nothing.
    At or above the threshold the call fails only when the flush it had
    to run failed, and then the buffered entries are as before. *)
Theorem SL_Log_level_gate (N : Z) (now : nat -> list ascii)
    (s : State) (c : LogCall) :
  config_ok N -> buffer_ok N s -> initialized s -> valid_call c = true ->
  let p := SL_LogCall N now s c in
  (captured now s c (snd p)
   <-> gLogLevel s <= arg_level c /\ fst p = SL_RESULT_SUCCESS)
  /\ (arg_level c < gLogLevel s -> fst p = SL_RESULT_SUCCESS /\ snd p = s)
  /\ (gLogLevel s <= arg_level c -> fst p <> SL_RESULT_SUCCESS ->
      flush_failed N s p /\ buffered (snd p) = buffered s)
  /\ shouldCapture (arg_level c) (gLogLevel s)
     = (gLogLevel s <=? arg_level c).
Proof.
  intros HN Hok Hi Hv. cbv zeta.
  destruct (SL_LogCall_step N now HN s c Hok Hi) as (_ & _ & _ & H).
  cbv zeta in H. unfold accepted, shouldCapture in H. rewrite Hv in H.
  cbn [andb] in H.
  set (p := SL_LogCall N now s c) in *.
  destruct H as [(Ha & Hr & Hc & _)|[(Ha & Hs & Hr)|(Ha & Hf & Hs & Hrows)]].
  - apply Z.leb_le in Ha.
    split; [split; [intros _; now split|intros _; exact Hc]|].
    split; [intros K; lia|]. split; [intros _ K; contradiction|reflexivity].
  - apply Z.leb_gt in Ha.
    split; [split; [intros K|intros [K _]; lia]|].
    { exfalso. revert K. apply not_captured. now rewrite Hs. }
    split; [intros _; split; [now apply Hr|exact Hs]|].
    split; [intros K; lia|reflexivity].
  - apply Z.leb_le in Ha.
    assert (Hrec : recorded (snd p) = recorded s)
      by (rewrite Hs; now apply recorded_set_database).
    destruct Hf as (Hfull & Hp & Hne).
    split; [split; [intros K|intros [_ K]; contradiction]|].
    { exfalso. revert K. now apply not_captured. }
    split; [intros K; lia|].
    split; [|reflexivity].
    intros _ _. split; [now repeat split|]. now rewrite Hs.
Qed.

(** A call for the level gate: a warning at threshold Info with a free
    slot in the cache. *)
Lemma SL_Log_level_gate_witness :
  config_ok Scenario.cache
  /\ buffer_ok Scenario.cache (Scenario.opened [])
  /\ initialized (Scenario.opened [])
  /\ valid_call (Scenario.call "careful" eSL_LogLevel_Warning) = true
  /\ captured Scenario.wall_clock (Scenario.opened [])
       (Scenario.call "careful" eSL_LogLevel_Warning)
       (snd (SL_LogCall Scenario.cache Scenario.wall_clock (Scenario.opened [])
               (Scenario.call "careful" eSL_LogLevel_Warning))).
Proof.
  assert (H1 : config_ok Scenario.cache) by (vm_compute; split; discriminate).
  assert (H2 : buffer_ok Scenario.cache (Scenario.opened []))
    by (split; [vm_compute; reflexivity|];
        split; [vm_compute; split; discriminate|vm_compute; reflexivity]).
  assert (H3 : initialized (Scenario.opened []))
    by (split; vm_compute; reflexivity).
  assert (H4 : valid_call (Scenario.call "careful" eSL_LogLevel_Warning) = true)
    by (vm_compute; reflexivity).
  do 4 (split; [assumption|]).
  apply (proj1 (SL_Log_level_gate Scenario.cache Scenario.wall_clock
                  (Scenario.opened [])
                  (Scenario.call "careful" eSL_LogLevel_Warning) H1 H2 H3 H4)).
  split; [vm_compute; discriminate|vm_compute; reflexivity].
Defined.

(** C4 fails as stated.  With the buffer at its threshold and a database
    that refuses the [BEGIN] of the flush, an info entry at threshold
    Info is at the threshold and yet not captured: the call returns
    [SQLITE_BUSY] and the buffered entries are the two from before. *)
Lemma entry_at_threshold_not_captured :
  initialized (Scenario.filled Scenario.begin_fails)
  /\ valid_call (Scenario.call "third" eSL_LogLevel_Info) = true
  /\ gLogLevel (Scenario.filled Scenario.begin_fails)
     <= arg_level (Scenario.call "third" eSL_LogLevel_Info)
  /\ fst (SL_LogCall Scenario.cache Scenario.wall_clock
            (Scenario.filled Scenario.begin_fails)
            (Scenario.call "third" eSL_LogLevel_Info)) = 5
  /\ buffered (snd (SL_LogCall Scenario.cache Scenario.wall_clock
                      (Scenario.filled Scenario.begin_fails)
                      (Scenario.call "third" eSL_LogLevel_Info)))
     = buffered (Scenario.filled Scenario.begin_fails)
  /\ ~ captured Scenario.wall_clock (Scenario.filled Scenario.begin_fails)
         (Scenario.call "third" eSL_LogLevel_Info)
         (snd (SL_LogCall Scenario.cache Scenario.wall_clock
                 (Scenario.filled Scenario.begin_fails)
                 (Scenario.call "third" eSL_LogLevel_Info))).
Proof.
  split; [split; vm_compute; reflexivity|].
  split; [vm_compute; reflexivity|].
  split; [vm_compute; discriminate|].
  split; [vm_compute; reflexivity|].
  split; [vm_compute; reflexivity|].
  apply not_captured. vm_compute. reflexivity.
Qed.

(** The label that an entry of level None carries into the store. *)
Lemma level_of_None_entry (now : nat -> list ascii) (k : nat) (c : LogCall) :
  arg_level c = eSL_LogLevel_None ->
  bound_text (level (entry_of now k c)) = Text kSL_NoneLevelString.
Proof.
  intros H. unfold entry_of, SL_FillEntry. cbn [level]. rewrite H.
  vm_compute. reflexivity.
Qed.

(** C3.  The header documents [eSL_LogLevel_None] as the level that
    logs nothing, and [eSL_LogLevel_Error] as the one that logs only
    errors; there is no macro and no view for None.  [SL_Log] does not
    reject it: None is within the range that the argument check lets
    through and it is the highest level, so that the comparison with the
    threshold lets it pass whatever the threshold is, also the threshold
    None.  A call at level None with valid arguments is captured like any
    other, with the label None, which the next flush binds as the level
    of its row; the only other outcome is the failure of the flush that
    the call had to run. *)
Theorem SL_Log_None_level_is_captured (N : Z) (now : nat -> list ascii)
    (s : State) (c : LogCall) :
  config_ok N -> buffer_ok N s -> initialized s -> level_ok s ->
  valid_call c = true -> arg_level c = eSL_LogLevel_None ->
  let p := SL_LogCall N now s c in
  (fst p = SL_RESULT_SUCCESS
   /\ captured now s c (snd p)
   /\ bound_text (level (entry_of now (clock s) c)) = Text kSL_NoneLevelString)
  \/ flush_failed N s p.
Proof.
  intros HN Hok Hi [_ Hl] Hv Hn. cbv zeta.
  destruct (SL_LogCall_step N now HN s c Hok Hi) as (_ & _ & _ & H).
  cbv zeta in H. unfold accepted, shouldCapture in H. rewrite Hv, Hn in H.
  cbn [andb] in H.
  destruct H as [(_ & Hr & Hc & _)|[(Ha & _)|(_ & Hf & _)]].
  - left. split; [exact Hr|]. split; [exact Hc|].
    now apply level_of_None_entry.
  - apply Z.leb_gt in Ha. lia.
  - now right.
Qed.

(** The failing input of C3: a call at level None in a session whose
    threshold is None. *)
Lemma SL_Log_None_level_is_captured_witness :
  config_ok Scenario.cache
  /\ buffer_ok Scenario.cache (Scenario.silenced)
  /\ initialized (Scenario.silenced)
  /\ level_ok (Scenario.silenced)
  /\ valid_call (Scenario.call "nothing" eSL_LogLevel_None) = true
  /\ arg_level (Scenario.call "nothing" eSL_LogLevel_None) = eSL_LogLevel_None
  /\ ((fst (SL_LogCall Scenario.cache Scenario.wall_clock (Scenario.silenced)
              (Scenario.call "nothing" eSL_LogLevel_None)) = SL_RESULT_SUCCESS
       /\ captured Scenario.wall_clock (Scenario.silenced)
            (Scenario.call "nothing" eSL_LogLevel_None)
            (snd (SL_LogCall Scenario.cache Scenario.wall_clock
                    (Scenario.silenced)
                    (Scenario.call "nothing" eSL_LogLevel_None)))
       /\ bound_text
            (level (entry_of Scenario.wall_clock (clock (Scenario.silenced))
                      (Scenario.call "nothing" eSL_LogLevel_None)))
          = Text kSL_NoneLevelString)
      \/ flush_failed Scenario.cache (Scenario.silenced)
           (SL_LogCall Scenario.cache Scenario.wall_clock (Scenario.silenced)
              (Scenario.call "nothing" eSL_LogLevel_None))).
Proof.
  assert (H1 : config_ok Scenario.cache) by (vm_compute; split; discriminate).
  assert (H2 : buffer_ok Scenario.cache (Scenario.silenced))
    by (split; [vm_compute; reflexivity|];
        split; [vm_compute; split; discriminate|vm_compute; reflexivity]).
  assert (H3 : initialized (Scenario.silenced))
    by (split; vm_compute; reflexivity).
  assert (H4 : level_ok (Scenario.silenced))
    by (vm_compute; split; discriminate).
  assert (H5 : valid_call (Scenario.call "nothing" eSL_LogLevel_None) = true)
    by (vm_compute; reflexivity).
  assert (H6 : arg_level (Scenario.call "nothing" eSL_LogLevel_None)
               = eSL_LogLevel_None) by reflexivity.
  do 6 (split; [assumption|]).
  exact (SL_Log_None_level_is_captured Scenario.cache Scenario.wall_clock
           (Scenario.silenced) (Scenario.call "nothing" eSL_LogLevel_None)
           H1 H2 H3 H4 H5 H6).
Defined.

(** The same call followed to the store.  With the threshold at None
    the call returns [SL_RESULT_SUCCESS], its entry is buffered with the
    label None, and the flush of [SL_Terminate] writes its row, whose
    level column reads None. *)
Lemma None_level_entry_reaches_the_store :
  gLogLevel Scenario.silenced = eSL_LogLevel_None
  /\ fst (SL_LogCall Scenario.cache Scenario.wall_clock Scenario.silenced
            (Scenario.call "nothing" eSL_LogLevel_None)) = SL_RESULT_SUCCESS
  /\ map (fun e => contents (level e))
       (buffered (snd (SL_LogCall Scenario.cache Scenario.wall_clock
                         Scenario.silenced
                         (Scenario.call "nothing" eSL_LogLevel_None))))
     = [of_string "None"]
  /\ map (fun r => r !! 2%nat)
       (rows (database
                (snd (SL_Terminate Scenario.cache
                        (snd (SL_LogCall Scenario.cache Scenario.wall_clock
                                Scenario.silenced
                                (Scenario.call "nothing" eSL_LogLevel_None)))))))
     = [Some (Text (of_string "None"))].
Proof. repeat split; vm_compute; reflexivity. Qed.
(** ** C2: the capacity boundary *)

(** C2.  Where the flush comes depends on the count that the session
    starts with.  In an initialized session with a cache of [N] slots
    and a count of [k], the next [N - 1 - k] accepted calls are stored
    one by one: each returns [SL_RESULT_SUCCESS], raises the count by one
    and leaves the database alone, so that no flush is started.  The
    accepted call after them starts exactly one flush,
    [SL_ProcessTransaction] on the buffered entries, and returns its
    result; when that is [SL_RESULT_SUCCESS] the rows of those entries
    are committed and the new entry is the only buffered one: the count
    is 1.

    With [k = 0] the flushing call is the [N]-th, as the capacity
    boundary has it.  [SL_Initialize] clears the slots and leaves
    [gLogEntryCount] as it is, so that a session opened after a teardown
    whose flush failed starts with [k > 0]: there the flushing call is
    among the first [N - 1] accepted calls. *)
Theorem SL_Log_flush_position (N : Z) (now : nat -> list ascii)
    (s : State) (cs : list LogCall) (c : LogCall) :
  config_ok N -> buffer_ok N s -> initialized s ->
  length cs = Z.to_nat (N - 1 - gLogEntryCount s) ->
  Forall (fun x => accepted (gLogLevel s) x = true) cs ->
  accepted (gLogLevel s) c = true ->
  let s1 := SL_LogAll N now cs s in
  let p := SL_LogCall N now s1 c in
  let t := SL_ProcessTransaction s1 in
  (forall j, (j <= length cs)%nat ->
     gLogEntryCount (SL_LogAll N now (take j cs) s)
     = gLogEntryCount s + Z.of_nat j
     /\ database (SL_LogAll N now (take j cs) s) = database s)
  /\ Forall (fun r => r = SL_RESULT_SUCCESS) (SL_LogResults N now cs s)
  /\ buffered s1 = buffered s ++ appended N now cs s
  /\ length (appended N now cs s) = length cs
  /\ flushes (database s1) = flushes (database s)
  /\ flushes (database (snd p)) = S (flushes (database s))
  /\ fst p = fst t
  /\ database (snd p) = database (snd t)
  /\ (fst p = SL_RESULT_SUCCESS ->
      gLogEntryCount (snd p) = 1
      /\ buffered (snd p) = [entry_of now (clock s1) c]
      /\ rows (database (snd p))
         = rows (database s) ++ map row_of (buffered s1))
  /\ (0 < gLogEntryCount s <= N - 1 ->
      Z.of_nat (length cs) + 1 <= N - 1).
Proof.
  intros HN Hok Hi Hlen Hall Hc. cbv zeta.
  assert (Hrun : forall xs, prefix xs cs ->
            let r := SL_LogAll N now xs s in
            database r = database s
            /\ gLogEntryCount r = gLogEntryCount s + Z.of_nat (length xs)
            /\ buffered r = buffered s ++ appended N now xs s
            /\ length (appended N now xs s) = length xs
            /\ Forall (fun x => x = SL_RESULT_SUCCESS) (SL_LogResults N now xs s)
            /\ buffer_ok N r /\ initialized r
            /\ gLogLevel r = gLogLevel s).
  { intros xs Hxs. pose proof (prefix_length _ _ Hxs) as Hle.
    destruct xs as [|x xs'].
    - cbv zeta. cbn [SL_LogAll SL_LogResults appended length].
      rewrite app_nil_r, Z.add_0_r. repeat split; trivial; apply Hok || apply Hi.
    - apply (SL_LogAll_direct N now HN (x :: xs') s Hok Hi).
      + destruct Hxs as [rest ->]. apply Forall_app in Hall. apply Hall.
      + cbn [length] in *. lia. }
  assert (Hprefix : forall j, (j <= length cs)%nat ->
            gLogEntryCount (SL_LogAll N now (take j cs) s)
            = gLogEntryCount s + Z.of_nat j
            /\ database (SL_LogAll N now (take j cs) s) = database s).
  { intros j Hj.
    destruct (Hrun (take j cs) (prefix_take cs j)) as (D & C & _).
    rewrite length_take in C. split; [lia|exact D]. }
  destruct (Hrun cs (reflexivity cs)) as (D & C & B & L & R & Ok1 & I1 & Lv).
  cbv zeta in *.
  set (s1 := SL_LogAll N now cs s) in *.
  rewrite <- Lv in Hc.
  assert (Hfull : ~ gLogEntryCount s1 < N - 1) by lia.
  destruct (SL_LogCall_flush N now HN s1 c I1 Hc Hfull) as (Fr & Fd & Fok & _).
  cbv zeta in *.
  destruct (SL_ProcessTransaction_spec s1) as (_ & Tf & _ & _ & Tok).
  cbv zeta in *.
  split; [exact Hprefix|]. split; [exact R|].
  split; [exact B|]. split; [exact L|].
  split; [now rewrite D|].
  split; [rewrite Fd, Tf; now rewrite D|].
  split; [exact Fr|]. split; [exact Fd|].
  split; [|lia].
  intros K. rewrite Fr in K. destruct (Fok K) as [F1 F2].
  split; [exact F1|]. split; [exact F2|].
  rewrite Fd. destruct (Tok K (proj2 I1)) as [Tr _]. now rewrite Tr, D.
Qed.

(** The failing input of C2: a cache of three slots and the session
    opened after a teardown whose flush failed, which starts with a count
    of 1.  The first accepted call is stored; the second, one of the
    first [N - 1], starts a flush, which writes the cleared slot 0 as a
    row of empty texts before the row of the first call. *)
Lemma SL_Log_flush_position_witness :
  config_ok Scenario.cache
  /\ buffer_ok Scenario.cache Scenario.reopened
  /\ initialized Scenario.reopened
  /\ length [Scenario.call "first" eSL_LogLevel_Info]
     = Z.to_nat (Scenario.cache - 1 - gLogEntryCount Scenario.reopened)
  /\ Forall (fun x => accepted (gLogLevel Scenario.reopened) x = true)
       [Scenario.call "first" eSL_LogLevel_Info]
  /\ accepted (gLogLevel Scenario.reopened)
       (Scenario.call "second" eSL_LogLevel_Info) = true
  /\ gLogEntryCount Scenario.reopened = 1
  /\ flushes (database
                (snd (SL_LogCall Scenario.cache Scenario.wall_clock
                        (SL_LogAll Scenario.cache Scenario.wall_clock
                           [Scenario.call "first" eSL_LogLevel_Info]
                           Scenario.reopened)
                        (Scenario.call "second" eSL_LogLevel_Info))))
     = S (flushes (database Scenario.reopened))
  /\ Z.of_nat (length [Scenario.call "first" eSL_LogLevel_Info]) + 1
     <= Scenario.cache - 1
  /\ map Scenario.message_of
       (rows (database
                (snd (SL_LogCall Scenario.cache Scenario.wall_clock
                        (SL_LogAll Scenario.cache Scenario.wall_clock
                           [Scenario.call "first" eSL_LogLevel_Info]
                           Scenario.reopened)
                        (Scenario.call "second" eSL_LogLevel_Info)))))
     = [Some (Text []); Some (Text (of_string "first"))].
Proof.
  assert (H1 : config_ok Scenario.cache) by (vm_compute; split; discriminate).
  assert (H2 : buffer_ok Scenario.cache Scenario.reopened)
    by (split; [vm_compute; reflexivity|];
        split; [vm_compute; split; discriminate|vm_compute; reflexivity]).
  assert (H3 : initialized Scenario.reopened)
    by (split; vm_compute; reflexivity).
  assert (H4 : length [Scenario.call "first" eSL_LogLevel_Info]
               = Z.to_nat (Scenario.cache - 1
                           - gLogEntryCount Scenario.reopened))
    by (vm_compute; reflexivity).
  assert (H5 : Forall (fun x => accepted (gLogLevel Scenario.reopened) x = true)
                 [Scenario.call "first" eSL_LogLevel_Info])
    by (repeat constructor; vm_compute; reflexivity).
  assert (H6 : accepted (gLogLevel Scenario.reopened)
                 (Scenario.call "second" eSL_LogLevel_Info) = true)
    by (vm_compute; reflexivity).
  assert (H7 : gLogEntryCount Scenario.reopened = 1)
    by (vm_compute; reflexivity).
  destruct (SL_Log_flush_position Scenario.cache Scenario.wall_clock
              Scenario.reopened
              [Scenario.call "first" eSL_LogLevel_Info]
              (Scenario.call "second" eSL_LogLevel_Info)
              H1 H2 H3 H4 H5 H6)
    as (_ & _ & _ & _ & _ & E6 & _ & _ & _ & E10).
  do 6 (split; [assumption|]).
  split; [exact H7|]. split; [exact E6|].
  split; [apply E10; rewrite H7; vm_compute; split; [reflexivity|discriminate]|].
  vm_compute. reflexivity.
Defined.

(** ** C6: the order of the rows *)

Section Order.

Variable N : Z.
Variable now : nat -> list ascii.
Hypothesis HN : config_ok N.

(** Whatever the calls of a run and whatever fails in it, what is
    recorded after the run is what was recorded before it, followed by
    the rows of the appended entries in call order. *)
Lemma recorded_SL_LogAll (cs : list LogCall) (s : State) :
  buffer_ok N s -> initialized s ->
  recorded (SL_LogAll N now cs s)
  = recorded s ++ map row_of (appended N now cs s)
  /\ buffer_ok N (SL_LogAll N now cs s)
  /\ initialized (SL_LogAll N now cs s).
Proof.
  revert s. induction cs as [|c cs IH]; intros s Hok Hi.
  - cbn [SL_LogAll appended map]. now rewrite app_nil_r.
  - cbn [SL_LogAll appended].
    destruct (SL_LogCall_step N now HN s c Hok Hi) as (Ok' & I' & _ & H).
    cbv zeta in *. set (p := SL_LogCall N now s c) in *.
    destruct (IH (snd p) Ok' I') as (R & Ok1 & I1).
    split; [|now split]. rewrite R.
    destruct H as [(Ha & Hr & [_ Hc] & _)|[(Ha & Hs & _)|(Ha & Hf & Hs & Hrows)]].
    + rewrite Ha, Hr. cbn [andb Z.eqb SL_RESULT_SUCCESS].
      rewrite Hc, map_app, <- !app_assoc. reflexivity.
    + rewrite Ha, Hs. reflexivity.
    + destruct Hf as (_ & _ & Hne).
      apply Z.eqb_neq in Hne. rewrite Ha, Hne. cbn [andb app].
      rewrite Hs. now rewrite recorded_set_database.
Qed.

(** A [SL_Terminate] that succeeds commits everything recorded. *)
Lemma rows_SL_Terminate (s : State) :
  buffer_ok N s -> initialized s ->
  fst (SL_Terminate N s) = SL_RESULT_SUCCESS ->
  rows (database (snd (SL_Terminate N s))) = recorded s.
Proof.
  intros Hok Hi Hr.
  destruct (SL_Terminate_spec N s Hi) as (_ & _ & _ & _ & Hpos & Hzero).
  cbv zeta in *.
  destruct (Z.ltb_spec 0 (gLogEntryCount s)) as [Hc|Hc].
  - destruct (Hpos Hc) as (Er & Ed & _ & _).
    destruct (SL_ProcessTransaction_spec s) as (_ & _ & _ & _ & Tok).
    cbv zeta in *. rewrite Er in Hr.
    destruct (Tok Hr (proj2 Hi)) as [Tr _].
    rewrite Ed. unfold recorded. now rewrite <- Tr.
  - destruct (Hzero Hc) as (_ & Ed & _ & _).
    rewrite Ed. unfold recorded, buffered.
    replace (Z.to_nat (gLogEntryCount s)) with 0%nat by lia.
    cbn [take map]. now rewrite app_nil_r.
Qed.

End Order.

(** C6.  In an initialized session, after any run of [SL_Log] calls, with
    any number of flushes and whichever of them failed, the committed
    rows followed by the rows of the buffered entries are what was
    recorded before the run followed by the rows of the entries that the
    run appended, in call order.  So the committed rows are a prefix of
    that sequence, and after a [SL_Terminate] that succeeds they are the
    whole of it. *)
Theorem SL_Log_rows_in_call_order (N : Z) (now : nat -> list ascii)
    (s : State) (cs : list LogCall) :
  config_ok N -> buffer_ok N s -> initialized s ->
  let s1 := SL_LogAll N now cs s in
  let sequence := recorded s ++ map row_of (appended N now cs s) in
  rows (database s1) ++ map row_of (buffered s1) = sequence
  /\ rows (database s1) `prefix_of` sequence
  /\ (fst (SL_Terminate N s1) = SL_RESULT_SUCCESS ->
      rows (database (snd (SL_Terminate N s1))) = sequence).
Proof.
  intros HN Hok Hi. cbv zeta.
  destruct (recorded_SL_LogAll N now HN cs s Hok Hi) as (R & Ok1 & I1).
  split; [exact R|].
  split; [rewrite <- R; now exists (map row_of (buffered (SL_LogAll N now cs s)))|].
  intros K. rewrite <- R. now apply rows_SL_Terminate.
Qed.

(** A run for C6: four accepted calls in a cache of three slots; the
    third call flushes the first two entries, the teardown the other two. *)
Lemma SL_Log_rows_in_call_order_witness :
  config_ok Scenario.cache
  /\ buffer_ok Scenario.cache (Scenario.opened [])
  /\ initialized (Scenario.opened [])
  /\ map Scenario.message_of
       (rows (database
                (snd (SL_Terminate Scenario.cache
                        (SL_LogAll Scenario.cache Scenario.wall_clock
                           Scenario.four_calls (Scenario.opened []))))))
     = [ Some (Text (of_string "first")); Some (Text (of_string "second"));
         Some (Text (of_string "third")); Some (Text (of_string "fourth")) ].
Proof.
  assert (H1 : config_ok Scenario.cache) by (vm_compute; split; discriminate).
  assert (H2 : buffer_ok Scenario.cache (Scenario.opened []))
    by (split; [vm_compute; reflexivity|];
        split; [vm_compute; split; discriminate|vm_compute; reflexivity]).
  assert (H3 : initialized (Scenario.opened []))
    by (split; vm_compute; reflexivity).
  do 3 (split; [assumption|]).
  destruct (SL_Log_rows_in_call_order Scenario.cache Scenario.wall_clock
              (Scenario.opened []) Scenario.four_calls H1 H2 H3)
    as (_ & _ & E).
  rewrite E by (vm_compute; reflexivity).
  vm_compute. reflexivity.
Defined.

(** * Further properties of the entry points *)

(** ** The threshold *)

(** A level of the enumeration set with [SL_SetLogLevel] is the level that
    [SL_GetLogLevel] returns next, whether or not a session is open, and
    nothing but the threshold changes. *)
Theorem SL_SetLogLevel_then_SL_GetLogLevel (level v : Z) (s : State) :
  eSL_LogLevel_Diagnostic <= level <= eSL_LogLevel_None ->
  fst (SL_SetLogLevel level s) = SL_RESULT_SUCCESS
  /\ SL_GetLogLevel (Some v) (snd (SL_SetLogLevel level s))
     = (SL_RESULT_SUCCESS, Some level)
  /\ snd (SL_SetLogLevel level s) = set_level level s.
Proof.
  intros [H1 H2]. unfold SL_SetLogLevel.
  destruct (Z.leb_spec eSL_LogLevel_Diagnostic level) as [_|K]; [|lia].
  destruct (Z.leb_spec level eSL_LogLevel_None) as [_|K]; [|lia].
  now repeat split.
Qed.

Lemma SL_SetLogLevel_then_SL_GetLogLevel_witness :
  eSL_LogLevel_Diagnostic <= eSL_LogLevel_Warning <= eSL_LogLevel_None
  /\ SL_GetLogLevel (Some 0)
       (snd (SL_SetLogLevel eSL_LogLevel_Warning (Scenario.opened [])))
     = (SL_RESULT_SUCCESS, Some eSL_LogLevel_Warning).
Proof.
  assert (H : eSL_LogLevel_Diagnostic <= eSL_LogLevel_Warning <= eSL_LogLevel_None)
    by (vm_compute; split; discriminate).
  split; [exact H|].
  exact (proj1 (proj2 (SL_SetLogLevel_then_SL_GetLogLevel
                         eSL_LogLevel_Warning 0 (Scenario.opened []) H))).
Defined.

(** A value outside the enumeration is refused with [EINVAL]; nothing
    changes, and [SL_GetLogLevel] still returns the threshold from before. *)
Theorem SL_SetLogLevel_out_of_range (level v : Z) (s : State) :
  level < eSL_LogLevel_Diagnostic \/ eSL_LogLevel_None < level ->
  SL_SetLogLevel level s = (EINVAL, s)
  /\ SL_GetLogLevel (Some v) (snd (SL_SetLogLevel level s))
     = (SL_RESULT_SUCCESS, Some (gLogLevel s)).
Proof.
  intros H. unfold SL_SetLogLevel.
  destruct (Z.leb_spec eSL_LogLevel_Diagnostic level) as [K1|K1];
    destruct (Z.leb_spec level eSL_LogLevel_None) as [K2|K2];
    cbn [andb]; try (split; reflexivity).
  lia.
Qed.

(** The value that the unit test casts to [tSL_LogLevel]. *)
Lemma SL_SetLogLevel_out_of_range_witness :
  (1234 < eSL_LogLevel_Diagnostic \/ eSL_LogLevel_None < 1234)
  /\ SL_SetLogLevel 1234 (Scenario.opened []) = (EINVAL, Scenario.opened []).
Proof.
  assert (H : 1234 < eSL_LogLevel_Diagnostic \/ eSL_LogLevel_None < 1234)
    by (right; reflexivity).
  split; [exact H|].
  exact (proj1 (SL_SetLogLevel_out_of_range 1234 0 (Scenario.opened []) H)).
Defined.

(** ** The checks of [SL_Log] *)

(** The result of a refused call, check by check. *)
Lemma SL_LogCall_refused_result (N : Z) (now : nat -> list ascii)
    (s : State) (c : LogCall) :
  valid_call c = false \/ gSQLiteDatabase s = db_null ->
  fst (SL_LogCall N now s c)
  = if (arg_level c <? eSL_LogLevel_Diagnostic)
       || (eSL_LogLevel_None <? arg_level c)
    then EINVAL
    else match arg_message c with
         | None => EFAULT
         | Some m =>
             if (strlen m =? 0)%nat then EINVAL
             else SL_RESULT_NOT_INITIALIZED
         end.
Proof.
  intros H.
  unfold SL_LogCall, SL_Log, valid_call in *.
  destruct ((arg_level c <? eSL_LogLevel_Diagnostic)
            || (eSL_LogLevel_None <? arg_level c)) eqn:El; [reflexivity|].
  destruct (arg_message c) as [m|]; [|reflexivity].
  destruct (Nat.eqb_spec (strlen m) 0) as [E|E]; [reflexivity|].
  cbn [negb andb Z.eqb SL_RESULT_SUCCESS] in *.
  apply orb_false_elim in El as [E1 E2].
  apply Z.ltb_ge in E1, E2.
  destruct H as [H|H].
  - apply andb_false_iff in H as [H|H]; apply Z.leb_gt in H; lia.
  - now rewrite H.
Qed.

(** The result of a refused call.  A level outside the enumeration gives
    [EINVAL] whatever the message is, also for a NULL message; with a
    level of the enumeration a NULL message gives [EFAULT] and an empty
    one [EINVAL]; valid arguments without an open session give
    [SL_RESULT_NOT_INITIALIZED].  The argument checks come first: a
    closed session is reported for valid arguments only.  None of these
    calls changes anything. *)
Theorem SL_Log_refusals (N : Z) (now : nat -> list ascii)
    (s : State) (c : LogCall) :
  valid_call c = false \/ gSQLiteDatabase s = db_null ->
  snd (SL_LogCall N now s c) = s
  /\ fst (SL_LogCall N now s c)
     = if (arg_level c <? eSL_LogLevel_Diagnostic)
          || (eSL_LogLevel_None <? arg_level c)
       then EINVAL
       else match arg_message c with
            | None => EFAULT
            | Some m =>
                if (strlen m =? 0)%nat then EINVAL
                else SL_RESULT_NOT_INITIALIZED
            end.
Proof.
  intros H. split.
  - now apply SL_LogCall_refused.
  - now apply SL_LogCall_refused_result.
Qed.

(** A NULL message with a level outside the enumeration, in a session
    that is not open. *)
Lemma SL_Log_refusals_witness :
  (valid_call {| arg_message := None; arg_level := 5678;
                 arg_fileName := None; arg_functionName := None;
                 arg_lineNumber := 0; arg_tag := None;
                 arg_supplementalData := None |} = false
   \/ gSQLiteDatabase (process_start Scenario.cache (fresh [])) = db_null)
  /\ fst (SL_LogCall Scenario.cache Scenario.wall_clock
            (process_start Scenario.cache (fresh []))
            {| arg_message := None; arg_level := 5678;
               arg_fileName := None; arg_functionName := None;
               arg_lineNumber := 0; arg_tag := None;
               arg_supplementalData := None |}) = EINVAL.
Proof.
  assert (H : valid_call {| arg_message := None; arg_level := 5678;
                            arg_fileName := None; arg_functionName := None;
                            arg_lineNumber := 0; arg_tag := None;
                            arg_supplementalData := None |} = false
              \/ gSQLiteDatabase (process_start Scenario.cache (fresh []))
                 = db_null)
    by (left; reflexivity).
  split; [exact H|].
  rewrite (proj2 (SL_Log_refusals Scenario.cache Scenario.wall_clock
                    (process_start Scenario.cache (fresh [])) _ H)).
  reflexivity.
Defined.

(** ** Opening twice, closing twice *)

(** [SL_Initialize] refuses a NULL path with [EFAULT], an empty path with
    [EINVAL] and, for a path that is neither, an open session with
    [SL_RESULT_ALREADY_INITIALIZED]; the path is checked first.  A
    refused call opens nothing and changes nothing. *)
Theorem SL_Initialize_refusals (N : Z) (now : nat -> list ascii)
    (path : option (list ascii)) (s : State) :
  path = None \/ (exists p, path = Some p /\ strlen p = 0%nat)
  \/ gSQLiteDatabase s = db_handle ->
  SL_Initialize N now path s
  = (match path with
     | None => EFAULT
     | Some p =>
         if (strlen p =? 0)%nat then EINVAL else SL_RESULT_ALREADY_INITIALIZED
     end, s).
Proof.
  intros H. unfold SL_Initialize.
  destruct path as [p|]; [|reflexivity].
  destruct (Nat.eqb_spec (strlen p) 0) as [E|E]; [reflexivity|].
  destruct H as [H|[(q & [= <-] & H)|H]]; [discriminate|contradiction|].
  now rewrite H.
Qed.

Lemma SL_Initialize_refusals_witness :
  (Scenario.path = None
   \/ (exists p, Scenario.path = Some p /\ strlen p = 0%nat)
   \/ gSQLiteDatabase (Scenario.opened []) = db_handle)
  /\ SL_Initialize Scenario.cache Scenario.wall_clock Scenario.path
       (Scenario.opened [])
     = (SL_RESULT_ALREADY_INITIALIZED, Scenario.opened []).
Proof.
  assert (H : Scenario.path = None
              \/ (exists p, Scenario.path = Some p /\ strlen p = 0%nat)
              \/ gSQLiteDatabase (Scenario.opened []) = db_handle)
    by (right; right; vm_compute; reflexivity).
  split; [exact H|].
  exact (SL_Initialize_refusals Scenario.cache Scenario.wall_clock Scenario.path
           (Scenario.opened []) H).
Defined.

(** After a successful [SL_Initialize], a second one with any usable path
    returns [SL_RESULT_ALREADY_INITIALIZED] and leaves the state of the
    first. *)
Theorem SL_Initialize_twice (N : Z) (now : nat -> list ascii)
    (path : option (list ascii)) (again : list ascii) (s : State) :
  fst (SL_Initialize N now path s) = SL_RESULT_SUCCESS ->
  strlen again <> 0%nat ->
  SL_Initialize N now (Some again) (snd (SL_Initialize N now path s))
  = (SL_RESULT_ALREADY_INITIALIZED, snd (SL_Initialize N now path s)).
Proof.
  intros H Hp.
  destruct (SL_Initialize_frame N now path s) as (_ & _ & _ & Hok).
  cbv zeta in Hok. destruct (Hok H) as (_ & [Hdb _] & _).
  rewrite SL_Initialize_refusals by auto.
  destruct (Nat.eqb_spec (strlen again) 0) as [E|E]; [contradiction|reflexivity].
Qed.

Lemma SL_Initialize_twice_witness :
  fst (SL_Initialize Scenario.cache Scenario.wall_clock Scenario.path
         (process_start Scenario.cache (fresh []))) = SL_RESULT_SUCCESS
  /\ strlen (of_string "other.sqlite3") <> 0%nat
  /\ SL_Initialize Scenario.cache Scenario.wall_clock
       (Some (of_string "other.sqlite3")) (Scenario.opened [])
     = (SL_RESULT_ALREADY_INITIALIZED, Scenario.opened []).
Proof.
  assert (H1 : fst (SL_Initialize Scenario.cache Scenario.wall_clock Scenario.path
                      (process_start Scenario.cache (fresh [])))
               = SL_RESULT_SUCCESS) by (vm_compute; reflexivity).
  assert (H2 : strlen (of_string "other.sqlite3") <> 0%nat)
    by (vm_compute; discriminate).
  do 2 (split; [assumption|]).
  exact (SL_Initialize_twice Scenario.cache Scenario.wall_clock Scenario.path
           (of_string "other.sqlite3")
           (process_start Scenario.cache (fresh [])) H1 H2).
Defined.

Lemma SL_Terminate_closes (N : Z) (s : State) :
  gSQLiteDatabase (snd (SL_Terminate N s)) = db_null.
Proof.
  unfold SL_Terminate. destruct (gSQLiteDatabase s) eqn:E; [exact E|].
  reflexivity.
Qed.

(** After [SL_Terminate], in whatever state it was called and whatever it
    returned, the session is closed: another [SL_Terminate] returns
    [SL_RESULT_NOT_INITIALIZED], a [SL_Log] with valid arguments returns
    [SL_RESULT_NOT_INITIALIZED], and neither changes anything. *)
Theorem after_SL_Terminate (N : Z) (now : nat -> list ascii)
    (s : State) (c : LogCall) :
  SL_Terminate N (snd (SL_Terminate N s))
  = (SL_RESULT_NOT_INITIALIZED, snd (SL_Terminate N s))
  /\ snd (SL_LogCall N now (snd (SL_Terminate N s)) c) = snd (SL_Terminate N s)
  /\ fst (SL_LogCall N now (snd (SL_Terminate N s)) c) <> SL_RESULT_SUCCESS
  /\ (valid_call c = true ->
      fst (SL_LogCall N now (snd (SL_Terminate N s)) c)
      = SL_RESULT_NOT_INITIALIZED).
Proof.
  pose proof (SL_Terminate_closes N s) as Hc.
  set (s' := snd (SL_Terminate N s)) in *.
  pose proof (SL_LogCall_refused_result N now s' c (or_intror Hc)) as Hr.
  destruct (SL_LogCall_refused N now s' c (or_intror Hc)) as [Hne Hs].
  split; [unfold SL_Terminate at 1; now rewrite Hc|].
  split; [exact Hs|]. split; [exact Hne|].
  intros Hv. rewrite Hr.
  destruct (valid_call_inv c Hv) as (m & Hm & Hl & H1 & H2).
  destruct (Z.ltb_spec (arg_level c) eSL_LogLevel_Diagnostic) as [K|_]; [lia|].
  destruct (Z.ltb_spec eSL_LogLevel_None (arg_level c)) as [K|_]; [lia|].
  cbn [orb]. rewrite Hm.
  destruct (Nat.eqb_spec (strlen m) 0) as [K|_]; [contradiction|reflexivity].
Qed.

(** [SL_Terminate] in an initialized session without buffered entries
    starts no flush: it succeeds, finalizes the statement and closes the
    database, and the committed rows are the ones from before. *)
Theorem SL_Terminate_empty_buffer (N : Z) (s : State) :
  initialized s -> gLogEntryCount s <= 0 ->
  fst (SL_Terminate N s) = SL_RESULT_SUCCESS
  /\ flushes (database (snd (SL_Terminate N s))) = flushes (database s)
  /\ rows (database (snd (SL_Terminate N s))) = rows (database s)
  /\ journal (database (snd (SL_Terminate N s)))
     = journal (database s) ++ [c_finalize stmt_insert; c_close].
Proof.
  intros Hi Hc.
  destruct (SL_Terminate_spec N s Hi) as (_ & _ & _ & _ & _ & Hz).
  cbv zeta in Hz. destruct (Hz Hc) as (Hr & Hd & _ & _).
  split; [exact Hr|]. rewrite Hd.
  split; [|split; [reflexivity|cbn; now rewrite <- app_assoc]].
  unfold flushes. cbn. rewrite <- app_assoc.
  rewrite List.filter_app. cbn. now rewrite app_nil_r.
Qed.

Lemma SL_Terminate_empty_buffer_witness :
  initialized (Scenario.opened [])
  /\ gLogEntryCount (Scenario.opened []) <= 0
  /\ fst (SL_Terminate Scenario.cache (Scenario.opened [])) = SL_RESULT_SUCCESS.
Proof.
  assert (H1 : initialized (Scenario.opened []))
    by (split; vm_compute; reflexivity).
  assert (H2 : gLogEntryCount (Scenario.opened []) <= 0)
    by (vm_compute; discriminate).
  do 2 (split; [assumption|]).
  exact (proj1 (SL_Terminate_empty_buffer Scenario.cache (Scenario.opened [])
                  H1 H2)).
Defined.

(** ** The flush as a whole *)

(** [SL_ProcessTransaction] commits all or nothing.  With the insert
    statement prepared, either it returns [SQLITE_OK], the rows of all
    buffered entries are added to the committed rows in slot order and no
    transaction is open; or it returns an error code and the committed
    rows are the ones from before.  In both cases it changes nothing but
    the database: clearing the buffer is left to its callers. *)
Theorem SL_ProcessTransaction_all_or_nothing (s : State) :
  gInsertStatement s = stmt_insert ->
  let t := SL_ProcessTransaction s in
  snd t = set_database (database (snd t)) s
  /\ ((fst t = SQLITE_OK
       /\ rows (database (snd t))
          = rows (database s) ++ map row_of (buffered s)
       /\ txn (database (snd t)) = None)
      \/ (is_error (fst t) = true
          /\ rows (database (snd t)) = rows (database s))).
Proof.
  intros Hst. cbv zeta.
  destruct (SL_ProcessTransaction_spec s) as (Ts & _ & To & Tko & Tok).
  cbv zeta in *. split; [exact Ts|].
  destruct To as [E|E].
  - left. split; [exact E|]. now apply Tok.
  - right. split; [exact E|]. apply Tko. now apply is_error_not_ok.
Qed.

Lemma SL_ProcessTransaction_all_or_nothing_witness :
  gInsertStatement (Scenario.filled []) = stmt_insert
  /\ map Scenario.message_of
       (rows (database (snd (SL_ProcessTransaction (Scenario.filled [])))))
     = [Some (Text (of_string "first")); Some (Text (of_string "second"))].
Proof.
  assert (H : gInsertStatement (Scenario.filled []) = stmt_insert)
    by (vm_compute; reflexivity).
  split; [exact H|].
  destruct (SL_ProcessTransaction_all_or_nothing (Scenario.filled []) H)
    as [_ [(_ & E & _)|(E & _)]].
  - rewrite E. vm_compute. reflexivity.
  - vm_compute in E. discriminate E.
Defined.

(** The calls of the loop body are binds, a step and a reset: none of
    them is a [ROLLBACK]. *)
Lemma rollbacks_snoc (d d' : db) (c : call) :
  journal d' = journal d ++ [c] ->
  rollbacks d' = (rollbacks d + (if is_rollback c then 1 else 0))%nat.
Proof.
  intros H. unfold rollbacks. rewrite H, List.filter_app, length_app.
  cbn [List.filter]. now destruct (is_rollback c).
Qed.

Lemma rollbacks_enter (c : call) (d : db) :
  is_rollback c = false -> rollbacks (snd (enter c d)) = rollbacks d.
Proof.
  intros Hc. destruct (enter_spec c d) as (_ & _ & _ & Hj & _).
  rewrite (rollbacks_snoc d _ c Hj), Hc. lia.
Qed.

Lemma rollbacks_record (c : call) (d : db) :
  is_rollback c = false -> rollbacks (record c d) = rollbacks d.
Proof.
  intros Hc. rewrite (rollbacks_snoc d (record c d) c eq_refl), Hc. lia.
Qed.

Lemma sqlite3_bind_rollbacks stmt k v d :
  rollbacks (snd (sqlite3_bind stmt k v d)) = rollbacks d.
Proof.
  pose proof (rollbacks_enter (c_bind k) d eq_refl) as He.
  pose proof (rollbacks_record (c_bind k) d eq_refl) as Hr.
  unfold sqlite3_bind.
  destruct stmt; cbn [snd]; trivial;
    destruct (enter (c_bind k) d) as [[f|] d']; cbn [snd] in *; trivial.
Qed.

Lemma sqlite3_step_rollbacks stmt d :
  rollbacks (snd (eat_done (sqlite3_step stmt d))) = rollbacks d.
Proof.
  pose proof (rollbacks_enter (c_step stmt) d eq_refl) as He.
  pose proof (rollbacks_record (c_step stmt) d eq_refl) as Hr.
  unfold sqlite3_step, eat_done.
  destruct stmt; cbn [snd]; trivial;
    destruct (enter _ d) as [[f|] d']; cbn [snd] in *; trivial.
  now destruct (txn d').
Qed.

Lemma sqlite3_reset_rollbacks stmt d :
  rollbacks (snd (sqlite3_reset stmt d)) = rollbacks d.
Proof.
  pose proof (rollbacks_enter c_reset d eq_refl) as He.
  unfold sqlite3_reset.
  destruct (enter c_reset d) as [[f|] d']; cbn [snd] in *; trivial.
Qed.

Lemma and_then_rollbacks (d : db) (p : Z * db) (next : db -> Z * db) :
  rollbacks (snd p) = rollbacks d ->
  (forall x, rollbacks (snd (next x)) = rollbacks x) ->
  rollbacks (snd (p >>> next)) = rollbacks d.
Proof.
  intros Hp Hn. destruct (and_then_cases p next) as [[_ ->]|[_ ->]]; trivial.
  now rewrite Hn.
Qed.

Lemma SL_InsertEntry_rollbacks stmt e d :
  rollbacks (snd (SL_InsertEntry stmt e d)) = rollbacks d.
Proof.
  unfold SL_InsertEntry.
  repeat (apply and_then_rollbacks;
          [|intros; first [apply sqlite3_bind_rollbacks
                          | apply sqlite3_reset_rollbacks
                          | apply sqlite3_step_rollbacks]]).
  apply sqlite3_bind_rollbacks.
Qed.

Lemma SL_InsertEntries_rollbacks stmt es d :
  rollbacks (snd (SL_InsertEntries stmt es d)) = rollbacks d.
Proof.
  revert d. induction es as [|e es IH]; intros d; cbn [SL_InsertEntries].
  - reflexivity.
  - cbv zeta.
    destruct (fst (SL_InsertEntry stmt e d) =? SQLITE_OK).
    + now rewrite IH, SL_InsertEntry_rollbacks.
    + apply SL_InsertEntry_rollbacks.
Qed.

(** [BEGIN] and [END] are journalled whether they fail or not. *)
Lemma journal_sqlite3_exec (cmd : command) (d : db) :
  journal (snd (sqlite3_exec cmd d)) = journal d ++ [c_exec cmd].
Proof.
  destruct (enter_spec (c_exec cmd) d) as (_ & _ & _ & Hj & _).
  unfold sqlite3_exec.
  destruct cmd; cbn [snd]; trivial;
    destruct (enter _ d) as [[f|] d']; cbn [snd] in *; trivial;
    destruct (txn d'); cbn [snd]; trivial.
Qed.

(** The three ways a flush ends, by the calls it makes.  A [BEGIN] that
    fails is the only call of the flush.  A row that fails is followed
    by one [ROLLBACK], the last call of the flush, and the code returned
    is that of the row.  When every row succeeded the last call is
    [END TRANSACTION] and its code is returned as it is: a commit that
    fails is reported and not rolled back, no [ROLLBACK] is issued and
    nothing else is tried.  In all three cases only the database
    changes. *)
Theorem SL_ProcessTransaction_last_call (s : State) :
  let b := sqlite3_exec BEGIN_TRANSACTION (database s) in
  let p := SL_InsertEntries (gInsertStatement s) (buffered s) (snd b) in
  let t := SL_ProcessTransaction s in
  snd t = set_database (database (snd t)) s
  /\ (fst b <> SQLITE_OK ->
      fst t = fst b
      /\ journal (database (snd t))
         = journal (database s) ++ [c_exec BEGIN_TRANSACTION]
      /\ rollbacks (database (snd t)) = rollbacks (database s))
  /\ (fst b = SQLITE_OK -> fst p <> SQLITE_OK ->
      fst t = fst p
      /\ journal (database (snd t)) = journal (snd p) ++ [c_exec ROLLBACK]
      /\ rollbacks (database (snd t)) = S (rollbacks (database s)))
  /\ (fst b = SQLITE_OK -> fst p = SQLITE_OK ->
      fst t = fst (sqlite3_exec END_TRANSACTION (snd p))
      /\ journal (database (snd t))
         = journal (snd p) ++ [c_exec END_TRANSACTION]
      /\ rollbacks (database (snd t)) = rollbacks (database s)).
Proof.
  cbv zeta.
  pose proof (journal_sqlite3_exec BEGIN_TRANSACTION (database s)) as Jb.
  pose proof (rollbacks_snoc _ _ _ Jb) as Rb. cbn [is_rollback] in Rb.
  pose proof (SL_InsertEntries_rollbacks (gInsertStatement s) (buffered s)
                (snd (sqlite3_exec BEGIN_TRANSACTION (database s)))) as Rp.
  unfold SL_ProcessTransaction.
  set (b := sqlite3_exec BEGIN_TRANSACTION (database s)) in *.
  set (p := SL_InsertEntries (gInsertStatement s) (buffered s) (snd b)) in *.
  pose proof (journal_sqlite3_exec END_TRANSACTION (snd p)) as Je.
  pose proof (rollbacks_snoc _ _ _ Je) as Re. cbn [is_rollback] in Re.
  pose proof (journal_sqlite3_exec ROLLBACK (snd p)) as Jr.
  pose proof (rollbacks_snoc _ _ _ Jr) as Rr. cbn [is_rollback] in Rr.
  destruct (Z.eqb_spec (fst b) SQLITE_OK) as [Eb|Eb];
    [destruct (Z.eqb_spec (fst p) SQLITE_OK) as [Ep|Ep]|];
    cbn [fst snd database set_database];
    (split; [reflexivity|]);
    (split; [intros K|split; intros K1 K2]);
    try contradiction; try (split; [reflexivity|split; [assumption|lia]]).
Qed.

(** A flush of two rows whose commit fails with [SQLITE_BUSY]: the code
    is returned, the last call is the [END TRANSACTION] and no
    [ROLLBACK] was issued. *)
Lemma SL_ProcessTransaction_last_call_witness :
  fst (SL_ProcessTransaction (Scenario.filled Scenario.commit_fails)) = 5
  /\ last (journal (database
                      (snd (SL_ProcessTransaction
                              (Scenario.filled Scenario.commit_fails)))))
     = Some (c_exec END_TRANSACTION)
  /\ rollbacks (database
                  (snd (SL_ProcessTransaction
                          (Scenario.filled Scenario.commit_fails)))) = 0%nat.
Proof.
  destruct (SL_ProcessTransaction_last_call
              (Scenario.filled Scenario.commit_fails))
    as (_ & _ & _ & H).
  cbv zeta in H.
  destruct H as (E1 & E2 & E3); [vm_compute; reflexivity..|].
  split; [rewrite E1; vm_compute; reflexivity|].
  split; [rewrite E2; apply last_snoc|].
  rewrite E3. vm_compute. reflexivity.
Defined.

(** ** The three outcomes of [SL_Initialize] *)

(** [SL_Initialize] is refused and changes nothing; or it opens the
    database and fails later, which leaves the database pointer set, the
    statement pointer as it was or NULL, and the slots as they were or
    cleared; or it succeeds. *)
Lemma SL_Initialize_cases (N : Z) (now : nat -> list ascii)
    (path : option (list ascii)) (s : State) :
  let p := SL_Initialize N now path s in
  (snd p = s /\ fst p <> SL_RESULT_SUCCESS
   /\ (path = None \/ (exists q, path = Some q /\ strlen q = 0%nat)
       \/ gSQLiteDatabase s = db_handle))
  \/ (fst p <> SL_RESULT_SUCCESS
      /\ gSQLiteDatabase s = db_null
      /\ gSQLiteDatabase (snd p) = db_handle
      /\ ((gLogEntries (snd p) = gLogEntries s
           /\ gInsertStatement (snd p) = gInsertStatement s)
          \/ (gLogEntries (snd p) = cleared_entries N
              /\ gInsertStatement (snd p) = stmt_null
              /\ fst (fst (sqlite3_open_v2 (database s))) = SQLITE_OK)))
  \/ (fst p = SL_RESULT_SUCCESS
      /\ gSQLiteDatabase s = db_null
      /\ initialized (snd p)
      /\ gLogEntries (snd p) = cleared_entries N).
Proof.
  cbv zeta.
  destruct (Z.eqb_spec (fst (SL_Initialize N now path s)) SL_RESULT_SUCCESS)
    as [E|E].
  { right. right. destruct (SL_Initialize_frame N now path s) as (_ & _ & _ & H).
    cbv zeta in H. destruct (H E) as (H1 & H2 & H3).
    split; [exact E|]. split; [exact H1|]. split; [exact H2|exact H3]. }
  revert E. unfold SL_Initialize.
  set (r0 := match path with
             | None => EFAULT
             | Some p => if (strlen p =? 0)%nat then EINVAL else SL_RESULT_SUCCESS
             end).
  destruct (Z.eqb_spec r0 SL_RESULT_SUCCESS) as [E0|E0].
  2:{ destruct (Z.eqb_spec r0 SL_RESULT_SUCCESS) as [K|_]; [contradiction|].
      intros E. left. split; [reflexivity|]. split; [exact E|].
      subst r0. destruct path as [q|]; [|now left].
      right. left. exists q. split; [reflexivity|].
      destruct (Nat.eqb_spec (strlen q) 0) as [K|K]; [exact K|].
      now contradiction E0. }
  destruct (gSQLiteDatabase s) eqn:Hdb.
  2:{ cbn [Z.eqb SL_RESULT_ALREADY_INITIALIZED SL_RESULT_RESERVED_START
           SL_RESULT_SUCCESS Z.sub Z.add Z.opp Z.pos_sub Pos.add fst snd].
      intros E. left. split; [reflexivity|]. split; [exact E|]. now right; right. }
  destruct (Z.eqb_spec r0 SL_RESULT_SUCCESS) as [_|K]; [|contradiction].
  destruct (sqlite3_open_v2_spec (database s)) as (_ & _ & Oh).
  destruct (sqlite3_open_v2 (database s)) as [[r h] d]. cbn [fst snd] in *.
  subst h.
  set (s1 := set_database d (set_handles db_handle (gInsertStatement s) s)).
  assert (D1 : gSQLiteDatabase s1 = db_handle) by reflexivity.
  assert (E1 : gLogEntries s1 = gLogEntries s) by reflexivity.
  assert (S1 : gInsertStatement s1 = gInsertStatement s) by reflexivity.
  destruct (Z.eqb_spec r SQLITE_OK) as [Er|Er].
  2:{ cbn [fst snd]. intros E. right. left.
      split; [exact E|]. split; [reflexivity|]. split; [reflexivity|].
      left. now split. }
  destruct (SL_CreateTable_frame now s1) as [(Th & Tst & _ & Te & _ & _) _].
  destruct (SL_CreateTable now s1) as [rt st]. cbn [fst snd] in *.
  destruct (Z.eqb_spec rt SL_RESULT_SUCCESS) as [Et|Et].
  2:{ cbn [fst snd]. intros E. right. left.
      split; [exact E|]. split; [reflexivity|]. split; [congruence|].
      left. split; congruence. }
  destruct (SL_CreateViews_frame st) as [(Vh & Vst & _ & Ve & _ & _) _].
  destruct (SL_CreateViews st) as [rv sv]. cbn [fst snd] in *.
  destruct (Z.eqb_spec rv SL_RESULT_SUCCESS) as [Ev|Ev].
  2:{ cbn [fst snd]. intros E. right. left.
      split; [exact E|]. split; [reflexivity|]. split; [congruence|].
      left. split; congruence. }
  cbn [database gSQLiteDatabase set_entries].
  destruct (sqlite3_prepare_v2_spec stmt_insert (database sv)) as (_ & _ & _ & Pko).
  destruct (sqlite3_prepare_v2 stmt_insert (database sv)) as [[ri sti] di].
  cbn [fst snd gLogEntries gSQLiteDatabase gInsertStatement set_database
       set_handles set_entries] in *.
  intros E. right. left.
  split; [exact E|]. split; [reflexivity|]. split; [congruence|].
  right. split; [reflexivity|]. split; [now apply Pko|exact Er].
Qed.

(** A [SL_Initialize] that opened the database and then failed leaves
    the session half open: the database pointer is set although the call
    failed, and the statement pointer is NULL.  The next [SL_Initialize]
    is therefore refused with [SL_RESULT_ALREADY_INITIALIZED]; only
    [SL_Terminate] makes the logger usable again. *)
Theorem SL_Initialize_failure_half_open (N : Z) (now : nat -> list ascii)
    (path : list ascii) (s : State) :
  strlen path <> 0%nat ->
  gSQLiteDatabase s = db_null -> gInsertStatement s = stmt_null ->
  fst (fst (sqlite3_open_v2 (database s))) = SQLITE_OK ->
  fst (SL_Initialize N now (Some path) s) <> SL_RESULT_SUCCESS ->
  let s' := snd (SL_Initialize N now (Some path) s) in
  gSQLiteDatabase s' = db_handle
  /\ gInsertStatement s' = stmt_null
  /\ SL_Initialize N now (Some path) s' = (SL_RESULT_ALREADY_INITIALIZED, s')
  /\ gSQLiteDatabase (snd (SL_Terminate N s')) = db_null.
Proof.
  intros Hp Hdb Hst Ho Hf. cbv zeta.
  destruct (SL_Initialize_cases N now (Some path) s)
    as [(_ & _ & [K|[(q & [= <-] & K)|K]])|[(_ & _ & Hh & Hc)|(K & _)]];
    cbv zeta in *; try discriminate; try contradiction; try congruence.
  split; [exact Hh|].
  split; [destruct Hc as [[_ H]|(_ & H & _)]; congruence|].
  split; [|apply SL_Terminate_closes].
  rewrite SL_Initialize_refusals by auto.
  destruct (Nat.eqb_spec (strlen path) 0) as [K|_]; [contradiction|reflexivity].
Qed.

Lemma SL_Initialize_failure_half_open_witness :
  strlen (of_string "log.sqlite3") <> 0%nat
  /\ gSQLiteDatabase
       (process_start Scenario.cache (fresh Scenario.create_table_fails))
     = db_null
  /\ gInsertStatement
       (process_start Scenario.cache (fresh Scenario.create_table_fails))
     = stmt_null
  /\ fst (fst (sqlite3_open_v2
                 (database (process_start Scenario.cache
                              (fresh Scenario.create_table_fails)))))
     = SQLITE_OK
  /\ fst (SL_Initialize Scenario.cache Scenario.wall_clock
            (Some (of_string "log.sqlite3"))
            (process_start Scenario.cache (fresh Scenario.create_table_fails)))
     <> SL_RESULT_SUCCESS
  /\ gSQLiteDatabase
       (snd (SL_Initialize Scenario.cache Scenario.wall_clock
               (Some (of_string "log.sqlite3"))
               (process_start Scenario.cache
                  (fresh Scenario.create_table_fails))))
     = db_handle.
Proof.
  assert (H1 : strlen (of_string "log.sqlite3") <> 0%nat)
    by (vm_compute; discriminate).
  assert (H2 : gSQLiteDatabase
                 (process_start Scenario.cache (fresh Scenario.create_table_fails))
               = db_null) by reflexivity.
  assert (H3 : gInsertStatement
                 (process_start Scenario.cache (fresh Scenario.create_table_fails))
               = stmt_null) by reflexivity.
  assert (H4 : fst (fst (sqlite3_open_v2
                           (database (process_start Scenario.cache
                                        (fresh Scenario.create_table_fails)))))
               = SQLITE_OK) by (vm_compute; reflexivity).
  assert (H5 : fst (SL_Initialize Scenario.cache Scenario.wall_clock
                      (Some (of_string "log.sqlite3"))
                      (process_start Scenario.cache
                         (fresh Scenario.create_table_fails)))
               <> SL_RESULT_SUCCESS) by (vm_compute; discriminate).
  do 5 (split; [assumption|]).
  exact (proj1 (SL_Initialize_failure_half_open Scenario.cache Scenario.wall_clock
                  (of_string "log.sqlite3")
                  (process_start Scenario.cache
                     (fresh Scenario.create_table_fails))
                  H1 H2 H3 H4 H5)).
Defined.

(** ** What every sequence of calls preserves *)

Section Invariant.

Variable N : Z.
Variable now : nat -> list ascii.
Hypothesis HN : config_ok N.


Lemma session_ok_cleared (s : State) :
  level_ok s -> (gInsertStatement s = stmt_null \/ initialized s) ->
  session_ok N (set_entries (cleared_entries N) (set_count 0 s)).
Proof.
  intros Hl Hs. split; [now apply buffer_ok_cleared|].
  split; [cbn [gLogEntryCount set_entries set_count]; lia|].
  split; [exact Hl|exact Hs].
Qed.






End Invariant.



(** ** What an entry stores *)

(** A string with fewer than [bound - 1] characters is copied without a
    terminator: the array then holds the string followed by whatever the
    slot held from that position on.  The stored string ends where the
    input ends only because the slot was cleared before. *)
Theorem SL_CopyField_writes_no_terminator (field s : list ascii) (bound : nat) :
  (strlen s < bound - 1)%nat ->
  SL_CopyField field s bound = contents s ++ drop (strlen s) field.
Proof.
  intros H. unfold SL_CopyField, SL_CopyCount.
  destruct (Nat.ltb_spec (strlen s) (bound - 1)) as [_|K]; [|lia].
  now rewrite strncpy_long by lia.
Qed.

(** The label "Info" copied over the label "Warning" reads "Infoing". *)
Lemma SL_CopyField_writes_no_terminator_witness :
  (strlen kSL_InfoLevelString < SL_LEVEL_STRING_LENGTH - 1)%nat
  /\ bound_text (SL_CopyField Scenario.stale_level kSL_InfoLevelString
                   SL_LEVEL_STRING_LENGTH)
     = Text (of_string "Infoing").
Proof.
  assert (H : (strlen kSL_InfoLevelString < SL_LEVEL_STRING_LENGTH - 1)%nat)
    by (vm_compute; lia).
  split; [exact H|].
  rewrite (SL_CopyField_writes_no_terminator Scenario.stale_level
             kSL_InfoLevelString SL_LEVEL_STRING_LENGTH H).
  vm_compute. reflexivity.
Defined.

Lemma bound_text_padded (t : list ascii) (n : nat) :
  strlen t = length t -> (0 < n)%nat ->
  bound_text (t ++ replicate n zero) = Text t.
Proof.
  intros Ht Hn. destruct n as [|n]; [lia|]. cbn [replicate].
  unfold bound_text, terminated, contents.
  rewrite (strlen_app_nul t (replicate n zero) Ht).
  rewrite length_app. cbn [length].
  destruct (Nat.ltb_spec (length t) (length t + S (length (replicate n zero))));
    [|lia].
  now rewrite take_app_length.
Qed.

Lemma strlen_contents_length (s : list ascii) :
  strlen (contents s) = length (contents s).
Proof. now rewrite strlen_contents, length_contents. Qed.

(** A string that fits is stored whole in a cleared array. *)
Lemma bound_text_SL_CopyField (s : list ascii) (bound : nat) :
  (strlen s < bound)%nat ->
  bound_text (SL_CopyField (replicate bound zero) s bound) = Text (contents s).
Proof.
  intros H. rewrite SL_CopyField_fits by exact H.
  apply bound_text_padded; [apply strlen_contents_length|lia].
Qed.

Lemma bound_text_SL_CopyOptional (o : option (list ascii)) (bound : nat) :
  (0 < bound)%nat -> fits o bound ->
  bound_text (SL_CopyOptional (replicate bound zero) o bound) = Text (text_of o).
Proof.
  intros Hb H. destruct o as [s|]; cbn [SL_CopyOptional text_of fits] in *.
  - now apply bound_text_SL_CopyField.
  - apply (bound_text_padded [] bound); [reflexivity|exact Hb].
Qed.

Lemma strlen_SL_LevelString (lvl : Z) :
  (strlen (SL_LevelString lvl) < SL_LEVEL_STRING_LENGTH)%nat
  /\ contents (SL_LevelString lvl) = SL_LevelString lvl.
Proof.
  unfold SL_LevelString.
  repeat match goal with
  | |- context [if ?b then _ else _] => destruct b
  end; vm_compute; split; (lia || reflexivity).
Qed.

(** A clock text that fits is stored whole, with its terminator. *)
Lemma SL_GetTimestamp_fits (now : nat -> list ascii) (a : list ascii)
    (k : nat) :
  length a = SL_TIMESTAMP_STRING_LENGTH ->
  (strlen (now k) < SL_TIMESTAMP_STRING_LENGTH)%nat ->
  length (SL_GetTimestamp now a k) = SL_TIMESTAMP_STRING_LENGTH
  /\ bound_text (SL_GetTimestamp now a k) = Text (contents (now k)).
Proof.
  intros Ha H. unfold SL_GetTimestamp.
  pose proof (length_contents (now k)) as Hl.
  pose proof (strlen_contents_length (now k)) as Hs.
  set (t := contents (now k)) in *.
  split.
  - rewrite length_app. cbn [length]. rewrite length_drop. lia.
  - unfold bound_text, terminated, contents.
    rewrite (strlen_app_nul t _ Hs), length_app. cbn [length].
    destruct (Nat.ltb_spec (length t)
                (length t + S (length (drop (S (length t)) a)))); [|lia].
    now rewrite take_app_length.
Qed.

(** [SL_GetTimestamp] stays within its array of 32 characters exactly
    when the text of the clock has fewer than 32 characters, and then the
    array holds that text and its terminator; a text of 32 characters or
    more is written past the end of the array. *)
Theorem SL_GetTimestamp_bounds (now : nat -> list ascii) (a : list ascii)
    (k : nat) :
  length a = SL_TIMESTAMP_STRING_LENGTH ->
  ((strlen (now k) < SL_TIMESTAMP_STRING_LENGTH)%nat ->
     length (SL_GetTimestamp now a k) = SL_TIMESTAMP_STRING_LENGTH
     /\ bound_text (SL_GetTimestamp now a k) = Text (contents (now k)))
  /\ ((SL_TIMESTAMP_STRING_LENGTH <= strlen (now k))%nat ->
      (SL_TIMESTAMP_STRING_LENGTH < length (SL_GetTimestamp now a k))%nat).
Proof.
  intros Ha. split; intros H.
  - now apply SL_GetTimestamp_fits.
  - unfold SL_GetTimestamp.
    pose proof (length_contents (now k)) as Hl.
    rewrite length_app. cbn [length]. lia.
Qed.

Lemma SL_GetTimestamp_bounds_witness :
  length (replicate SL_TIMESTAMP_STRING_LENGTH zero) = SL_TIMESTAMP_STRING_LENGTH
  /\ bound_text (SL_GetTimestamp Scenario.wall_clock
                   (replicate SL_TIMESTAMP_STRING_LENGTH zero) 0)
     = Text (of_string "2022-02-19 10:00:00.000000 UTC").
Proof.
  assert (H : length (replicate SL_TIMESTAMP_STRING_LENGTH zero)
              = SL_TIMESTAMP_STRING_LENGTH) by reflexivity.
  split; [exact H|].
  destruct (SL_GetTimestamp_bounds Scenario.wall_clock
              (replicate SL_TIMESTAMP_STRING_LENGTH zero) 0 H) as [E _].
  rewrite (proj2 (E ltac:(vm_compute; lia))). reflexivity.
Defined.

(** What is logged is what is stored.  When the message and the optional
    strings of a call fit their arrays, the clock text fits the timestamp
    array and the line number is below 2^31, the row that the flush
    writes for the entry holds the clock text, the message, the label of
    the level, the file name, the function name, the line number, the
    tag and the supplemental data as they were passed.  An optional
    string passed as NULL is stored as the empty text, not as NULL. *)
Theorem logged_row (now : nat -> list ascii) (k : nat) (c : LogCall)
    (m : list ascii) :
  arg_message c = Some m ->
  (strlen m < SL_MESSAGE_STRING_LENGTH)%nat ->
  fits (arg_fileName c) SL_FILE_NAME_STRING_LENGTH ->
  fits (arg_functionName c) SL_FUNCTION_NAME_STRING_LENGTH ->
  fits (arg_tag c) SL_TAG_STRING_LENGTH ->
  fits (arg_supplementalData c) SL_SUPPLEMENTAL_DATA_STRING_LENGTH ->
  (strlen (now k) < SL_TIMESTAMP_STRING_LENGTH)%nat ->
  0 <= arg_lineNumber c < 2147483648 ->
  row_of (entry_of now k c)
  = [ Text (contents (now k));
      Text (contents m);
      Text (SL_LevelString (arg_level c));
      Text (text_of (arg_fileName c));
      Text (text_of (arg_functionName c));
      Integer (arg_lineNumber c);
      Text (text_of (arg_tag c));
      Text (text_of (arg_supplementalData c)) ].
Proof.
  intros Hm Hlen Hf Hu Ht Hd Hk Hline.
  unfold row_of, entry_of, SL_FillEntry, zero_entry.
  cbn [timestamp message level fileName functionName lineNumber tag
       supplementalData].
  rewrite Hm. change (default [] (Some m)) with m.
  destruct (SL_GetTimestamp_fits now
              (replicate SL_TIMESTAMP_STRING_LENGTH zero) k
              (length_replicate _ _) Hk) as [Hw Ets].
  rewrite (take_ge _ SL_TIMESTAMP_STRING_LENGTH) by (rewrite Hw; lia).
  rewrite (drop_ge _ SL_TIMESTAMP_STRING_LENGTH) by (rewrite Hw; lia).
  rewrite overwritten_nil, Ets.
  rewrite (bound_text_SL_CopyField m _ Hlen).
  destruct (strlen_SL_LevelString (arg_level c)) as [Hl1 Hl2].
  rewrite (bound_text_SL_CopyField _ _ Hl1), Hl2.
  rewrite !bound_text_SL_CopyOptional
    by (assumption || (vm_compute; lia)).
  unfold int_of_uint32.
  destruct (Z.ltb_spec (arg_lineNumber c) 2147483648) as [_|K]; [|lia].
  reflexivity.
Qed.

Lemma logged_row_witness :
  arg_message (Scenario.call "first" eSL_LogLevel_Info)
  = Some (of_string "first")
  /\ (strlen (of_string "first") < SL_MESSAGE_STRING_LENGTH)%nat
  /\ fits (arg_fileName (Scenario.call "first" eSL_LogLevel_Info))
       SL_FILE_NAME_STRING_LENGTH
  /\ fits (arg_functionName (Scenario.call "first" eSL_LogLevel_Info))
       SL_FUNCTION_NAME_STRING_LENGTH
  /\ fits (arg_tag (Scenario.call "first" eSL_LogLevel_Info))
       SL_TAG_STRING_LENGTH
  /\ fits (arg_supplementalData (Scenario.call "first" eSL_LogLevel_Info))
       SL_SUPPLEMENTAL_DATA_STRING_LENGTH
  /\ (strlen (Scenario.wall_clock 1) < SL_TIMESTAMP_STRING_LENGTH)%nat
  /\ 0 <= arg_lineNumber (Scenario.call "first" eSL_LogLevel_Info) < 2147483648
  /\ row_of (entry_of Scenario.wall_clock 1
               (Scenario.call "first" eSL_LogLevel_Info))
     = [ Text (of_string "2022-02-19 10:00:00.000000 UTC");
         Text (of_string "first");
         Text (of_string "Info");
         Text (of_string "main.c");
         Text (of_string "main");
         Integer 42;
         Text [];
         Text [] ].
Proof.
  assert (H1 : arg_message (Scenario.call "first" eSL_LogLevel_Info)
               = Some (of_string "first")) by reflexivity.
  assert (H2 : (strlen (of_string "first") < SL_MESSAGE_STRING_LENGTH)%nat)
    by (vm_compute; lia).
  assert (H3 : fits (arg_fileName (Scenario.call "first" eSL_LogLevel_Info))
                 SL_FILE_NAME_STRING_LENGTH) by (vm_compute; lia).
  assert (H4 : fits (arg_functionName (Scenario.call "first" eSL_LogLevel_Info))
                 SL_FUNCTION_NAME_STRING_LENGTH) by (vm_compute; lia).
  assert (H5 : fits (arg_tag (Scenario.call "first" eSL_LogLevel_Info))
                 SL_TAG_STRING_LENGTH) by exact I.
  assert (H6 : fits (arg_supplementalData
                       (Scenario.call "first" eSL_LogLevel_Info))
                 SL_SUPPLEMENTAL_DATA_STRING_LENGTH) by exact I.
  assert (H7 : (strlen (Scenario.wall_clock 1)
                < SL_TIMESTAMP_STRING_LENGTH)%nat) by (vm_compute; lia).
  assert (H8 : 0 <= arg_lineNumber (Scenario.call "first" eSL_LogLevel_Info)
               < 2147483648) by (cbn; lia).
  do 8 (split; [assumption|]).
  rewrite (logged_row Scenario.wall_clock 1
             (Scenario.call "first" eSL_LogLevel_Info) (of_string "first")
             H1 H2 H3 H4 H5 H6 H7 H8).
  vm_compute. reflexivity.
Defined.

(** ** A clock text that does not fit *)

(** Strings without a NUL: parts and concatenations have none either. *)
Lemma strlen_full_app (a b : list ascii) :
  strlen a = length a -> strlen b = length b ->
  strlen (a ++ b) = length (a ++ b).
Proof.
  intros Ha Hb. induction a as [|c r IH]; cbn [app strlen length] in *;
    [exact Hb|].
  destruct (is_nul c); [discriminate|]. f_equal. apply IH. lia.
Qed.

Lemma strlen_full_drop (a : list ascii) (n : nat) :
  strlen a = length a -> strlen (drop n a) = length (drop n a).
Proof.
  revert n. induction a as [|c r IH]; intros [|n] Ha; trivial.
  cbn [drop]. apply IH. cbn [strlen length] in Ha.
  destruct (is_nul c); [discriminate|lia].
Qed.

(** When the clock text has 32 characters or more, the timestamp array
    of the entry holds its first 32 characters and no terminator, so
    that the text bound for the timestamp column runs on past the array.
    What [SL_GetTimestamp] wrote past the array is in [message] when the
    message is copied there, without a terminator: a message shorter than
    the spill is stored followed by the rest of the clock text. *)
Theorem SL_FillEntry_long_clock_text (now : nat -> list ascii) (k : nat)
    (m : list ascii) (lvl : Z) (file func : option (list ascii)) (line : Z)
    (tg sd : option (list ascii)) :
  (SL_TIMESTAMP_STRING_LENGTH <= strlen (now k))%nat ->
  (strlen (now k) < SL_TIMESTAMP_STRING_LENGTH + SL_MESSAGE_STRING_LENGTH)%nat ->
  (strlen m < SL_MESSAGE_STRING_LENGTH - 1)%nat ->
  let e := SL_FillEntry now zero_entry k m lvl file func line tg sd in
  timestamp e = take SL_TIMESTAMP_STRING_LENGTH (contents (now k))
  /\ bound_text (timestamp e)
     = TextOverrun (take SL_TIMESTAMP_STRING_LENGTH (contents (now k)))
  /\ bound_text (message e)
     = Text (contents m
             ++ drop (SL_TIMESTAMP_STRING_LENGTH + strlen m) (contents (now k))).
Proof.
  intros Hlo Hhi Hm. cbv zeta.
  unfold SL_FillEntry, zero_entry, SL_GetTimestamp.
  cbn [timestamp message].
  pose proof (length_contents (now k)) as Hl.
  pose proof (strlen_contents_length (now k)) as Hs.
  set (t := contents (now k)) in *.
  unfold SL_TIMESTAMP_STRING_LENGTH, SL_MESSAGE_STRING_LENGTH in *.
  assert (Ets : take 32 (t ++ zero :: drop (S (length t)) (replicate 32 zero))
                = take 32 t) by (rewrite take_app_le by lia; reflexivity).
  rewrite Ets.
  split; [reflexivity|]. split.
  - unfold bound_text, terminated.
    rewrite strlen_take by lia. rewrite length_take.
    destruct (Nat.ltb_spec 32 (Nat.min 32 (length t))); [lia|reflexivity].
  - rewrite (drop_ge (replicate 32 zero)) by (rewrite length_replicate; lia).
    rewrite drop_app_le by lia.
    unfold overwritten. rewrite length_replicate.
    rewrite length_app, length_drop. cbn [length].
    rewrite drop_replicate.
    replace (take 1024 ((drop 32 t ++ [zero])
                        ++ replicate (1024 - (length t - 32 + 1)) zero))
      with (drop 32 t ++ replicate (1024 - (length t - 32)) zero).
    2:{ rewrite take_ge
          by (rewrite !length_app, length_drop, length_replicate;
              cbn [length]; lia).
        rewrite <- app_assoc. f_equal.
        replace (1024 - (length t - 32))%nat
          with (S (1024 - (length t - 32 + 1)))%nat by lia.
        reflexivity. }
    unfold SL_CopyField, SL_CopyCount.
    destruct (Nat.ltb_spec (strlen m) (1024 - 1)) as [_|K]; [|lia].
    rewrite strncpy_long by lia. fold (contents m).
    rewrite drop_app, drop_drop, length_drop, drop_replicate.
    rewrite app_assoc.
    apply bound_text_padded; [|lia].
    apply strlen_full_app; [apply strlen_contents_length|].
    now apply strlen_full_drop.
Qed.

(** A zone abbreviation of seven characters and the message "a": the
    message column reads "a>". *)
Lemma SL_FillEntry_long_clock_text_witness :
  (SL_TIMESTAMP_STRING_LENGTH <= strlen (Scenario.long_clock 0))%nat
  /\ (strlen (Scenario.long_clock 0)
      < SL_TIMESTAMP_STRING_LENGTH + SL_MESSAGE_STRING_LENGTH)%nat
  /\ (strlen (of_string "a") < SL_MESSAGE_STRING_LENGTH - 1)%nat
  /\ bound_text
       (message (SL_FillEntry Scenario.long_clock zero_entry 0 (of_string "a")
                   eSL_LogLevel_Info None None 0 None None))
     = Text (of_string "a>").
Proof.
  assert (H1 : (SL_TIMESTAMP_STRING_LENGTH <= strlen (Scenario.long_clock 0))%nat)
    by (vm_compute; lia).
  assert (H2 : (strlen (Scenario.long_clock 0)
                < SL_TIMESTAMP_STRING_LENGTH + SL_MESSAGE_STRING_LENGTH)%nat)
    by (vm_compute; lia).
  assert (H3 : (strlen (of_string "a") < SL_MESSAGE_STRING_LENGTH - 1)%nat)
    by (vm_compute; lia).
  do 3 (split; [assumption|]).
  destruct (SL_FillEntry_long_clock_text Scenario.long_clock 0 (of_string "a")
              eSL_LogLevel_Info None None 0 None None H1 H2 H3) as (_ & _ & E).
  rewrite E. vm_compute. reflexivity.
Defined.

(** ** The descriptions of the result codes *)

(** [SL_Result_String] has a string for a code exactly when the code is
    not one of the reserved codes from -31 to -4. *)
Theorem SL_Result_String_defined (strerror : Z -> string) (resultCode : Z) :
  SL_Result_String strerror resultCode = None
  <-> SL_RESULT_RESERVED_END <= resultCode <= -4.
Proof.
  unfold SL_Result_String, SL_RESULT_RESERVED_END, SL_RESULT_RESERVED_START,
    SL_RESULT_SUCCESS, kSL_ResultStrings, uint32.
  destruct (Z.ltb_spec 0 resultCode) as [H0|H0]; [split; [discriminate|lia]|].
  destruct (Z.leb_spec resultCode (-1)) as [H1|H1];
    destruct (Z.leb_spec (-31) resultCode) as [H2|H2]; cbn [andb];
    try (split; [discriminate|lia]).
  rewrite Z.mod_small by lia.
  rewrite lookup_ge_None. cbn [length]. lia.
Qed.

(** The strings themselves.  A positive code is described by [strerror];
    -1, -2 and -3 have the three descriptions of the table;
    [SL_RESULT_SUCCESS] and every code below the reserved range are
    described by the empty string, the first entry of the table, and not
    by "Unknown error code", which describes -1 only. *)
Theorem SL_Result_String_values (strerror : Z -> string) :
  (forall c, 0 < c -> SL_Result_String strerror c = Some (strerror c))
  /\ (forall c, c = SL_RESULT_SUCCESS \/ c < SL_RESULT_RESERVED_END ->
        SL_Result_String strerror c = Some ""%string)
  /\ SL_Result_String strerror SL_RESULT_FAILURE
     = Some "Unknown error code"%string
  /\ SL_Result_String strerror SL_RESULT_NOT_INITIALIZED
     = Some "Not initialized"%string
  /\ SL_Result_String strerror SL_RESULT_ALREADY_INITIALIZED
     = Some "Already initialized"%string.
Proof.
  split; [|split; [|now repeat split]].
  - intros c Hc. unfold SL_Result_String, SL_RESULT_SUCCESS.
    destruct (Z.ltb_spec 0 c) as [_|K]; [reflexivity|lia].
  - intros c Hc.
    unfold SL_Result_String, SL_RESULT_SUCCESS, SL_RESULT_RESERVED_END,
      SL_RESULT_RESERVED_START in *.
    destruct (Z.ltb_spec 0 c) as [K|_]; [lia|].
    destruct (Z.leb_spec c (-1)) as [H1|H1];
      destruct (Z.leb_spec (-31) c) as [H2|H2]; cbn [andb];
      try reflexivity.
    lia.
Qed.

(** ** A database that does not fail *)













Section Healthy.

Variable N : Z.
Variable now : nat -> list ascii.
Hypothesis HN : config_ok N.




End Healthy.



(** A [SL_Terminate] that succeeds in an initialized session leaves the
    buffer empty, count 0 and every slot cleared when it had entries to
    flush, and the database holding every row that was recorded: the
    committed rows followed by the rows of the buffered entries. *)
Theorem SL_Terminate_success (N : Z) (s : State) :
  buffer_ok N s -> initialized s ->
  fst (SL_Terminate N s) = SL_RESULT_SUCCESS ->
  gLogEntryCount (snd (SL_Terminate N s)) = 0
  /\ (0 < gLogEntryCount s -> buffer_empty N (snd (SL_Terminate N s)))
  /\ rows (database (snd (SL_Terminate N s)))
     = rows (database s) ++ map row_of (buffered s).
Proof.
  intros Hok Hi Hr.
  destruct (SL_Terminate_spec N s Hi) as (_ & _ & _ & _ & Hpos & Hzero).
  cbv zeta in *.
  split; [|split; [|exact (rows_SL_Terminate N s Hok Hi Hr)]].
  - destruct (Z.ltb_spec 0 (gLogEntryCount s)) as [Hc|Hc].
    + destruct (Hpos Hc) as (E & _ & Hclear & _).
      rewrite E in Hr. now destruct (Hclear Hr).
    + destruct (Hzero Hc) as (_ & _ & _ & E). rewrite E.
      destruct Hok as (_ & Hrange & _). lia.
  - intros Hc. destruct (Hpos Hc) as (E & _ & Hclear & _).
    rewrite E in Hr. now apply Hclear.
Qed.

Lemma SL_Terminate_success_witness :
  buffer_ok Scenario.cache (Scenario.filled [])
  /\ initialized (Scenario.filled [])
  /\ fst (SL_Terminate Scenario.cache (Scenario.filled [])) = SL_RESULT_SUCCESS
  /\ gLogEntryCount (snd (SL_Terminate Scenario.cache (Scenario.filled []))) = 0.
Proof.
  assert (H1 : buffer_ok Scenario.cache (Scenario.filled []))
    by (split; [vm_compute; reflexivity|];
        split; [vm_compute; split; discriminate|vm_compute; reflexivity]).
  assert (H2 : initialized (Scenario.filled []))
    by (split; vm_compute; reflexivity).
  assert (H3 : fst (SL_Terminate Scenario.cache (Scenario.filled []))
               = SL_RESULT_SUCCESS) by (vm_compute; reflexivity).
  do 3 (split; [assumption|]).
  exact (proj1 (SL_Terminate_success Scenario.cache (Scenario.filled [])
                  H1 H2 H3)).
Defined.
